(** * Position accounting of the crypto wallet

    A shallow embedding of the wallet document of
    [server/models/Wallet.js] (its three aggregate virtuals and the methods
    [addOrUpdateCurrency], [updateCurrencyPrices], [recordPortfolioSnapshot])
    and of the bodies of the [POST /api/wallet/sell] handler and of the
    history and transaction queries of [server/routes/wallet.js], followed by
    the properties of the position ledger that they implement.

    Conventions of the embedding.
    - A JavaScript [Number] is read as an exact rational ([Qc], canonical
      rationals with Leibniz equality) in the main development.  Every
      division of the source is either guarded by the source itself
      ([averageBuyPrice > 0], [totalInvestment === 0]) or, for
      [totalCost / totalAmount], has a non-zero divisor under the hypotheses
      of each statement that mentions it.  The statements proved there
      repeat the expressions of the code or speak of its order and of its
      control flow; none of them is an identity of exact arithmetic that
      rounding would break.  Module [Ieee] reads the same buy code on
      binary64 numbers, bit for bit, and is where the effect of rounding on
      the aggregates is evaluated.
    - The request body of [POST /buy] carries JSON values: the method
      receives a number or a string, unconverted.  [addOrUpdateCurrencyJson]
      embeds the method on those; [addOrUpdateCurrency] is the same method
      on numbers.
    - A symbol is the string the handlers obtain from [symbol.toUpperCase()].
    - A [Date] is a time value in milliseconds ([Z]), or [None] for an
      Invalid Date.  [d.setDate(d.getDate() + n)] is local-calendar
      arithmetic, embedded by [shiftDate] from the host's time zone, which is
      an argument of every function that calls it.  The [new Date()] reads
      of one call are one instant [now].
    - The Mongoose array [currencies] is a list in insertion order;
      [Array.prototype.find] returns the first match together with its place,
      so that the assignments to the found sub-document are an update of the
      list at that index. *)

From Stdlib Require Import QArith Qcanon Qround Floats.
From Stdlib Require DecimalString.

Set Warnings "-inexact-float".
From stdpp Require Import base numbers list strings gmap sorting.

Local Open Scope Qc_scope.

(** ** The wallet document ([server/models/Wallet.js]) *)

Module WalletModel.

(** One entry of [walletSchema.currencies]. *)
Record Currency := mkCurrency {
  symbol : string;
  name : string;
  amount : Qc;
  averageBuyPrice : Qc;
  currentPrice : Qc;
  value : Qc;
  profitLoss : Qc;
  profitLossPercentage : Qc
}.

(** One entry of the [currencies] array of a history record. *)
Record SnapshotCurrency := mkSnapshotCurrency {
  snap_symbol : string;
  snap_amount : Qc;
  snap_price : Qc;
  snap_value : Qc
}.

(** One entry of [walletSchema.portfolioHistory]. *)
Record Snapshot := mkSnapshot {
  date : Z;
  totalValue : Qc;
  snap_currencies : list SnapshotCurrency
}.

(** The part of the wallet document the ledger operations read and write. *)
Record Wallet := mkWallet {
  currencies : list Currency;
  portfolioHistory : list Snapshot
}.

#[global] Instance Currency_eq_dec : EqDecision Currency.
Proof. solve_decision. Defined.
#[global] Instance SnapshotCurrency_eq_dec : EqDecision SnapshotCurrency.
Proof. solve_decision. Defined.
#[global] Instance Snapshot_eq_dec : EqDecision Snapshot.
Proof. solve_decision. Defined.
#[global] Instance Wallet_eq_dec : EqDecision Wallet.
Proof. solve_decision. Defined.

(** The literal [100] of the percentage formulas. *)
Definition hundred : Qc := Qc_of_Z 100.

(** [this.currencies.find(c => c.symbol === symbol)]: the first entry with
    that symbol and its index, or [None] for [undefined]. *)
Definition findCurrency (sym : string) (cs : list Currency)
  : option (nat * Currency) :=
  list_find (λ c, symbol c = sym) cs.

(** [averageBuyPrice > 0 ? ((price - averageBuyPrice) / averageBuyPrice) * 100 : 0],
    the expression shared by the three places that refresh a position. *)
Definition percentage (price avg : Qc) : Qc :=
  if decide (0 < avg) then ((price - avg) / avg) * hundred else 0.

(** Virtual [totalPortfolioValue]. *)
Definition totalPortfolioValue (w : Wallet) : Qc :=
  foldl (λ total currency, total + value currency) 0 (currencies w).

(** Virtual [totalProfitLoss]. *)
Definition totalProfitLoss (w : Wallet) : Qc :=
  foldl (λ total currency, total + profitLoss currency) 0 (currencies w).

(** The local [totalInvestment] of the virtual [totalProfitLossPercentage]. *)
Definition totalInvestment (w : Wallet) : Qc :=
  foldl (λ total currency, total + amount currency * averageBuyPrice currency)
        0 (currencies w).

(** Virtual [totalProfitLossPercentage]. *)
Definition totalProfitLossPercentage (w : Wallet) : Qc :=
  if decide (totalInvestment w = 0) then 0
  else
    let totalCurrentValue :=
      foldl (λ total currency, total + value currency) 0 (currencies w) in
    ((totalCurrentValue - totalInvestment w) / totalInvestment w) * hundred.

(** The branch [if (existingCurrency)] of [addOrUpdateCurrency]: the found
    entry after its six assignments. *)
Definition buyMore (existingCurrency : Currency) (amt price : Qc) : Currency :=
  let totalAmount := amount existingCurrency + amt in
  let totalCost :=
    amount existingCurrency * averageBuyPrice existingCurrency + amt * price in
  let newAverage := totalCost / totalAmount in
  let newValue := totalAmount * price in
  {| symbol := symbol existingCurrency;
     name := name existingCurrency;
     amount := totalAmount;
     averageBuyPrice := newAverage;
     currentPrice := price;
     value := newValue;
     profitLoss := newValue - totalAmount * newAverage;
     profitLossPercentage := percentage price newAverage |}.

(** The object pushed by the [else] branch of [addOrUpdateCurrency]. *)
Definition newCurrency (sym nm : string) (amt price : Qc) : Currency :=
  {| symbol := sym;
     name := nm;
     amount := amt;
     averageBuyPrice := price;
     currentPrice := price;
     value := amt * price;
     profitLoss := 0;
     profitLossPercentage := 0 |}.

(** Method [addOrUpdateCurrency({symbol, name, amount, price})]. *)
Definition addOrUpdateCurrency (w : Wallet) (sym nm : string) (amt price : Qc)
  : Wallet :=
  match findCurrency sym (currencies w) with
  | Some (i, existingCurrency) =>
      {| currencies := <[i := buyMore existingCurrency amt price]> (currencies w);
         portfolioHistory := portfolioHistory w |}
  | None =>
      {| currencies := currencies w ++ [newCurrency sym nm amt price];
         portfolioHistory := portfolioHistory w |}
  end.

(** The body of the [forEach] callback of [updateCurrencyPrices], given
    [newPrice = priceData[currency.symbol]] ([None] for [undefined]).
    [if (newPrice)] is JavaScript truthiness: a number passes when it is
    not zero. *)
Definition refreshPrice (newPrice : option Qc) (currency : Currency) : Currency :=
  match newPrice with
  | Some p =>
      if decide (p = 0) then currency
      else
        let newValue := amount currency * p in
        {| symbol := symbol currency;
           name := name currency;
           amount := amount currency;
           averageBuyPrice := averageBuyPrice currency;
           currentPrice := p;
           value := newValue;
           profitLoss := newValue - amount currency * averageBuyPrice currency;
           profitLossPercentage := percentage p (averageBuyPrice currency) |}
  | None => currency
  end.

(** Method [updateCurrencyPrices(priceData)]; the object [priceData] is a
    finite map from symbols to prices. *)
Definition updateCurrencyPrices (w : Wallet) (priceData : gmap string Qc)
  : Wallet :=
  {| currencies :=
       (λ currency, refreshPrice (priceData !! symbol currency) currency)
         <$> currencies w;
     portfolioHistory := portfolioHistory w |}.

(** One day and one hour in milliseconds. *)
Definition dayMs : Z := 86400000.
Definition hourMs : Z := 3600000.

(** The host's time zone, as ECMAScript consults it: [offsetAt t] is
    [LocalTZA(t, true)], the offset of local time at the instant [t], and
    [offsetOfLocal t] is [LocalTZA(t, false)], the offset to take for the
    local time value [t]. *)
Record TimeZone := mkTimeZone {
  offsetAt : Z → Z;
  offsetOfLocal : Z → Z
}.

(** [TimeClip]: a time value beyond 8.64e15 ms is an Invalid Date. *)
Definition timeClip (t : Z) : option Z :=
  if decide (Z.abs t ≤ 8640000000000000)%Z then Some t else None.

(** [d.setDate(d.getDate() + n)] on a date holding the time value [t]: the
    local time is moved by [n] calendar days, at the same time of day, and
    converted back ([MakeDay], [MakeDate], [UTC], [TimeClip]).  The result is
    the new time value of [d]. *)
Definition shiftDate (tz : TimeZone) (n t : Z) : option Z :=
  let localTime := (t + offsetAt tz t)%Z in
  let newDate := (localTime + n * dayMs)%Z in
  timeClip (newDate - offsetOfLocal tz newDate).

(** [record.date >= cutoffDate], for a stored date and a cutoff that may be
    an Invalid Date (every comparison with it is false). *)
Definition onOrAfter (cutoffDate : option Z) (t : Z) : Prop :=
  match cutoffDate with
  | Some cutoff => (cutoff ≤ t)%Z
  | None => False
  end.

#[global] Instance onOrAfter_dec cutoffDate t : Decision (onOrAfter cutoffDate t).
Proof. destruct cutoffDate; simpl; apply _. Defined.

(** The object [snapshot] built by [recordPortfolioSnapshot]. *)
Definition makeSnapshot (now : Z) (w : Wallet) : Snapshot :=
  {| date := now;
     totalValue := totalPortfolioValue w;
     snap_currencies :=
       (λ currency,
          {| snap_symbol := symbol currency;
             snap_amount := amount currency;
             snap_price := currentPrice currency;
             snap_value := value currency |})
         <$> currencies w |}.

(** Method [recordPortfolioSnapshot()], run at the instant [now] on a host
    in the time zone [tz]. *)
Definition recordPortfolioSnapshot (tz : TimeZone) (now : Z) (w : Wallet)
  : Wallet :=
  let history := portfolioHistory w ++ [makeSnapshot now w] in
  let cutoffDate := shiftDate tz (-365) now in
  {| currencies := currencies w;
     portfolioHistory :=
       filter (λ record, onOrAfter cutoffDate (date record)) history |}.

(** The method [addOrUpdateCurrency] on the values of the request body. *)

(** A value of the JSON body that the validator [isFloat] lets through: a
    number, or a string that reads as one. *)
Inductive Json :=
  | JNumber (q : Qc)
  | JString (s : string).

(** [Number::toString] and [StringToNumber], on the integers in decimal
    notation with an optional minus sign; other numbers and other strings
    are outside the model ([None]). *)
Definition numberToString (q : Qc) : option string :=
  if decide (Qden q = 1%positive)
  then Some (DecimalString.NilZero.string_of_int (Z.to_int (Qnum q)))
  else None.

Definition stringToNumber (s : string) : option Qc :=
  (λ digits, Qc_of_Z (Z.of_int digits))
  <$> DecimalString.NilZero.int_of_string s.

(** [ToNumber], as [*], [/], [-] and the Mongoose cast to [Number] apply
    it. *)
Definition toNumber (v : Json) : option Qc :=
  match v with
  | JNumber q => Some q
  | JString s => stringToNumber s
  end.

(** [existingCurrency.amount + amount]: the sum of two numbers, but the
    concatenation of the printed number and the string when [amount] is a
    string.  The result is returned as the number that every later use of
    [totalAmount] converts it to. *)
Definition addAmount (held : Qc) (amountJs : Json) : option Qc :=
  match amountJs with
  | JNumber q => Some (held + q)
  | JString s => shown ← numberToString held; stringToNumber (shown ++ s)
  end.

(** The found entry after the six assignments, given the number that
    [totalAmount] converts to. *)
Definition mergeBought (existingCurrency : Currency) (totalAmount amt price : Qc)
  : Currency :=
  let totalCost :=
    amount existingCurrency * averageBuyPrice existingCurrency + amt * price in
  let newAverage := totalCost / totalAmount in
  let newValue := totalAmount * price in
  {| symbol := symbol existingCurrency;
     name := name existingCurrency;
     amount := totalAmount;
     averageBuyPrice := newAverage;
     currentPrice := price;
     value := newValue;
     profitLoss := newValue - totalAmount * newAverage;
     profitLossPercentage := percentage price newAverage |}.

(** Method [addOrUpdateCurrency({symbol, name, amount, price})] as the
    [POST /buy] handler calls it, with [amount] and [price] as they are in
    the request body. *)
Definition addOrUpdateCurrencyJson
    (w : Wallet) (sym nm : string) (amountJs priceJs : Json) : option Wallet :=
  amt ← toNumber amountJs;
  price ← toNumber priceJs;
  match findCurrency sym (currencies w) with
  | Some (i, existingCurrency) =>
      totalAmount ← addAmount (amount existingCurrency) amountJs;
      Some {| currencies :=
                <[i := mergeBought existingCurrency totalAmount amt price]>
                  (currencies w);
              portfolioHistory := portfolioHistory w |}
  | None =>
      Some {| currencies := currencies w ++ [newCurrency sym nm amt price];
              portfolioHistory := portfolioHistory w |}
  end.

End WalletModel.

Import WalletModel.

(** ** The sell handler ([server/routes/wallet.js]) *)

Module WalletRoutes.

(** The two 400 answers of the handler body. *)
Inductive SellError :=
  | CurrencyNotFound      (* 'Currency not found' *)
  | InsufficientBalance.  (* 'Insufficient balance' *)

#[global] Instance SellError_eq_dec : EqDecision SellError.
Proof. solve_decision. Defined.

(** The found entry after the four assignments under
    [// Update wallet - reduce currency amount]. *)
Definition reduceAmount (currency : Currency) (amt : Qc) : Currency :=
  let newAmount := amount currency - amt in
  let newValue := newAmount * currentPrice currency in
  {| symbol := symbol currency;
     name := name currency;
     amount := newAmount;
     averageBuyPrice := averageBuyPrice currency;
     currentPrice := currentPrice currency;
     value := newValue;
     profitLoss := newValue - newAmount * averageBuyPrice currency;
     profitLossPercentage :=
       percentage (currentPrice currency) (averageBuyPrice currency) |}.

(** The body of the [POST /sell] handler on a wallet that was found, for the
    request [{symbol, amount, price}] with [sym = symbol.toUpperCase()].
    It returns the wallet as it is afterwards and either the error answered
    or [fiatAmount = amount * price], the proceeds recorded in the
    transaction.  The [Transaction] document, created and saved between the
    two checks and the update, lives in a collection of its own and holds no
    reference into the wallet's arrays. *)
Definition sell (w : Wallet) (sym : string) (amt price : Qc)
  : Wallet * (SellError + Qc) :=
  match findCurrency sym (currencies w) with
  | None => (w, inl CurrencyNotFound)
  | Some (i, currency) =>
      if decide (amount currency < amt) then (w, inl InsufficientBalance)
      else
        let fiatAmount := amt * price in
        let reduced := reduceAmount currency amt in
        let updated := <[i := reduced]> (currencies w) in
        let kept :=
          if decide (amount reduced ≤ 0)
          then filter (λ c, symbol c ≠ sym) updated
          else updated in
        ({| currencies := kept; portfolioHistory := portfolioHistory w |},
         inr fiatAmount)
  end.

(** The bounds of the request validators: [isFloat({ min: 0.000001 })] on
    [amount] and [isFloat({ min: 0.01 })] on [price]. *)
Definition minAmount : Qc := Q2Qc (1 # 1000000).
Definition minPrice : Qc := Q2Qc (1 # 100).

End WalletRoutes.

Import WalletRoutes.

(** ** The ledger as a transition system *)

(** The wallet a new user starts with: no position, no history. *)
Definition emptyWallet : Wallet :=
  {| currencies := []; portfolioHistory := [] |}.

(** One ledger operation.  A buy carries a positive amount and a
    non-negative price, a sell a positive amount; the validators of the two
    routes ([minAmount], [minPrice]) are stricter than that.  A sell steps to
    the wallet the handler leaves, also when it answers an error. *)
Inductive step : Wallet → Wallet → Prop :=
  | step_buy w sym nm amt price :
      0 < amt → 0 ≤ price →
      step w (addOrUpdateCurrency w sym nm amt price)
  | step_sell w sym amt price :
      0 < amt →
      step w (fst (sell w sym amt price))
  | step_prices w priceData :
      step w (updateCurrencyPrices w priceData).

(** The wallets reachable from the empty one. *)
Inductive reachable : Wallet → Prop :=
  | reachable_empty : reachable emptyWallet
  | reachable_step w w' : reachable w → step w w' → reachable w'.

(** A rational from numerator and positive denominator, for concrete cases. *)
Definition qc (n : Z) (d : positive) : Qc := Q2Qc (n # d).

(** The position of the scenario of the specification after its two buys and
    its price update: 3 BTC bought at an average of 11000, quoted at 12000. *)
Definition btcPosition : Currency :=
  {| symbol := "BTC"; name := "Bitcoin";
     amount := qc 3 1; averageBuyPrice := qc 11000 1;
     currentPrice := qc 12000 1; value := qc 36000 1;
     profitLoss := qc 3000 1; profitLossPercentage := qc 100 11 |}.

(** A wallet holding that position and nothing else. *)
Definition btcWallet : Wallet :=
  {| currencies := [btcPosition]; portfolioHistory := [] |}.

(** [btcWallet] after a first buy of 5 ETH at 2000. *)
Definition twoPositionWallet : Wallet :=
  addOrUpdateCurrency btcWallet "ETH" "Ethereum" (qc 5 1) (qc 2000 1).

(** A host on universal time. *)
Definition utc : TimeZone :=
  {| offsetAt := λ _, 0%Z; offsetOfLocal := λ _, 0%Z |}.

(** The instants at which New York is on daylight time in 2024 and 2025:
    from 10 March 2024 07:00 UTC to 3 November 2024 06:00 UTC and from
    9 March 2025 07:00 UTC to 2 November 2025 06:00 UTC. *)
Definition easternDaylight (t : Z) : Prop :=
  (1710054000000 ≤ t < 1730613600000)%Z ∨ (1741503600000 ≤ t < 1762063200000)%Z.

(** A host in America/New_York, for instants between November 2023 and
    March 2026: five hours behind universal time, four on daylight time.  A
    local time that occurs twice or not at all takes the offset in force
    before the change. *)
Definition newYork : TimeZone :=
  {| offsetAt := λ t,
       if decide (easternDaylight t) then (-4 * hourMs)%Z else (-5 * hourMs)%Z;
     offsetOfLocal := λ t,
       if decide (easternDaylight (t + 4 * hourMs))
       then (-4 * hourMs)%Z else (-5 * hourMs)%Z |}.

(** Noon in New York on 2 November 2025 (17:00 UTC), the day daylight time
    ended. *)
Definition noonAfterChange : Z := 1762102800000.

(** A wallet whose history holds one record, dated 365 days and 30 minutes
    before [noonAfterChange]. *)
Definition yearOldRecord : Snapshot :=
  {| date := (noonAfterChange - 365 * dayMs - 1800000)%Z;
     totalValue := qc 36000 1;
     snap_currencies := [] |}.

Definition yearOldWallet : Wallet :=
  {| currencies := [btcPosition]; portfolioHistory := [yearOldRecord] |}.

(** What every operation keeps true of a position: it is held in a positive
    amount, at a non-negative average cost, and its stored [profitLoss] is
    its stored value minus what was paid for it. *)
Record positionOk (c : Currency) : Prop := {
  amount_pos : 0 < amount c;
  averageBuyPrice_nonneg : 0 ≤ averageBuyPrice c;
  profitLoss_stored : profitLoss c = value c - amount c * averageBuyPrice c
}.

Definition walletOk (w : Wallet) : Prop := Forall positionOk (currencies w).

(** The [reduce] of the three virtuals over a field [f], from an
    accumulator [a]. *)
Definition sumFrom (f : Currency → Qc) (a : Qc) (cs : list Currency) : Qc :=
  foldl (λ total currency, total + f currency) a cs.

(** What the operations keep true of the stored derived fields, in the
    very expressions of the code: the value is the amount at the current
    price; the profit or loss and the percentage are either the ones the
    last merge, sell or price update computed from the fields of the
    position, or the zeros of a position untouched since its first buy,
    whose average cost is its current price. *)
Record storedOk (c : Currency) : Prop := {
  value_stored : value c = amount c * currentPrice c;
  profit_stored :
    (profitLoss c = value c - amount c * averageBuyPrice c ∧
     profitLossPercentage c = percentage (currentPrice c) (averageBuyPrice c))
    ∨ (profitLoss c = 0 ∧ profitLossPercentage c = 0 ∧
       averageBuyPrice c = currentPrice c)
}.

(** The symbols of the positions, in order. *)
Definition symbols (w : Wallet) : list string := symbol <$> currencies w.

(** The sum of a list of numbers, added from the left as [reduce] does. *)
Definition sumList (xs : list Qc) : Qc := foldl Qcplus 0 xs.

(** ** The history and transaction queries ([server/routes/wallet.js]) *)

(** [.sort((a, b) => a.date - b.date)].  [Array.prototype.sort] is stable
    and the comparator is a consistent order on the dates, so the result is
    the one arrangement of the records that ascends by date and keeps
    records of equal date in the order they had; it is computed here by
    insertion from the right. *)
Fixpoint insertByDate (record : Snapshot) (sorted : list Snapshot)
  : list Snapshot :=
  match sorted with
  | [] => [record]
  | next :: rest =>
      if decide (date record ≤ date next)%Z
      then record :: next :: rest
      else next :: insertByDate record rest
  end.

Definition sortByDate (records : list Snapshot) : list Snapshot :=
  foldr insertByDate [] records.

(** The order the history is kept and answered in: ascending by date. *)
Definition byDate (a b : Snapshot) : Prop := (date a ≤ date b)%Z.

(** The array [portfolioHistory] answered by the body of the
    [GET /portfolio-history] handler on a wallet that was found, at the
    instant [now] on a host in the time zone [tz], for
    [days = parseInt(req.query.days)] ([None] when that is [NaN]). *)
Definition getPortfolioHistory
    (tz : TimeZone) (now : Z) (days : option Z) (w : Wallet) : list Snapshot :=
  let cutoffDate := d ← days; shiftDate tz (- d) now in
  let history :=
    sortByDate
      (filter (λ record, onOrAfter cutoffDate (date record))
              (portfolioHistory w)) in
  if decide (length history = 0%nat)
  then history ++ [makeSnapshot now w]
  else history.

(** The object [pagination] of the [GET /transactions] answer. *)
Record Pagination := mkPagination {
  currentPage : Z;
  totalPages : Z;
  totalTransactions : Z;
  hasNextPage : bool;
  hasPrevPage : bool
}.


(** The pagination computed by the [GET /transactions] handler from the
    numbers [page] and [limit] of the query and the count
    [totalTransactions]; [Math.ceil(totalTransactions / limit)] is the
    ceiling of the exact quotient. *)
Definition paginate (page limit total : Z) : Pagination :=
  let pages := Qceiling (inject_Z total / inject_Z limit)%Q in
  {| currentPage := page;
     totalPages := pages;
     totalTransactions := total;
     hasNextPage := bool_decide (page < pages)%Z;
     hasPrevPage := bool_decide (1 < page)%Z |}.


(** [Math.max(price, 0.01)] and the like. *)
Definition maxQc (x y : Qc) : Qc := if decide (x < y) then y else x.

(** [generateMockPriceHistory(currentPrice, days)], run at the instant
    [now] on a host in the time zone [tz]; [days] is [None] for [NaN] and
    [random i] is what [Math.random()] returns in round [i] of the loop.  A
    pair is [[date.getTime(), price]], with [None] for the [NaN] of an
    Invalid Date. *)
Definition generateMockPriceHistory
    (tz : TimeZone) (random : nat → Qc) (now : Z) (currentPrice : Qc)
    (days : option Z)
  : list (option Z * Qc) :=
  match days with
  | None => []
  | Some days =>
      let startDate := shiftDate tz (- days) now in
      (λ i : nat,
         let date := start ← startDate; shiftDate tz (Z.of_nat i) start in
         let fluctuation := (random i - qc 1 2) * qc 1 10 in
         let basePrice :=
           currentPrice * (1 - Qc_of_Z (days - Z.of_nat i) * qc 1 1000) in
         let price := basePrice * (1 + fluctuation) in
         (date, maxQc price (qc 1 100)))
      <$> seq 0 (Z.to_nat days)
  end.

(** The position that two buys of a symbol leave in a wallet, the second
    made on what the first left. *)
Definition afterTwoBuys (w : Wallet) (sym nm : string)
    (amount1 price1 amount2 price2 : Json) : option (nat * Currency) :=
  w1 ← addOrUpdateCurrencyJson w sym nm amount1 price1;
  w2 ← addOrUpdateCurrencyJson w1 sym nm amount2 price2;
  findCurrency sym (currencies w2).

(** ** The buy code on binary64 numbers *)

(** The method [addOrUpdateCurrency] and the three virtuals once more, with
    [Number] read as what it is, an IEEE 754 binary64 number: [+], [-], [*]
    and [/] round to nearest, [>] and [===] are the comparisons of the
    standard.  The history plays no part and is left out. *)
Module Ieee.

Local Open Scope float_scope.

Record Currency := mkCurrency {
  symbol : string;
  name : string;
  amount : float;
  averageBuyPrice : float;
  currentPrice : float;
  value : float;
  profitLoss : float;
  profitLossPercentage : float
}.

Record Wallet := mkWallet {
  currencies : list Currency
}.

Definition hundred : float := 100.

Definition findCurrency (sym : string) (cs : list Currency)
  : option (nat * Currency) :=
  list_find (λ c, symbol c = sym) cs.

Definition percentage (price avg : float) : float :=
  if PrimFloat.ltb 0 avg then ((price - avg) / avg) * hundred else 0.

Definition totalPortfolioValue (w : Wallet) : float :=
  foldl (λ total currency, total + value currency) 0 (currencies w).

Definition totalProfitLoss (w : Wallet) : float :=
  foldl (λ total currency, total + profitLoss currency) 0 (currencies w).

Definition totalInvestment (w : Wallet) : float :=
  foldl (λ total currency, total + amount currency * averageBuyPrice currency)
        0 (currencies w).

Definition totalProfitLossPercentage (w : Wallet) : float :=
  if PrimFloat.eqb (totalInvestment w) 0 then 0
  else
    let totalCurrentValue :=
      foldl (λ total currency, total + value currency) 0 (currencies w) in
    ((totalCurrentValue - totalInvestment w) / totalInvestment w) * hundred.

Definition buyMore (existingCurrency : Currency) (amt price : float) : Currency :=
  let totalAmount := amount existingCurrency + amt in
  let totalCost :=
    amount existingCurrency * averageBuyPrice existingCurrency + amt * price in
  let newAverage := totalCost / totalAmount in
  let newValue := totalAmount * price in
  {| symbol := symbol existingCurrency;
     name := name existingCurrency;
     amount := totalAmount;
     averageBuyPrice := newAverage;
     currentPrice := price;
     value := newValue;
     profitLoss := newValue - totalAmount * newAverage;
     profitLossPercentage := percentage price newAverage |}.

Definition newCurrency (sym nm : string) (amt price : float) : Currency :=
  {| symbol := sym;
     name := nm;
     amount := amt;
     averageBuyPrice := price;
     currentPrice := price;
     value := amt * price;
     profitLoss := 0;
     profitLossPercentage := 0 |}.

Definition addOrUpdateCurrency (w : Wallet) (sym nm : string) (amt price : float)
  : Wallet :=
  match findCurrency sym (currencies w) with
  | Some (i, existingCurrency) =>
      {| currencies := <[i := buyMore existingCurrency amt price]> (currencies w) |}
  | None =>
      {| currencies := currencies w ++ [newCurrency sym nm amt price] |}
  end.

(** The wallet after three buys on an empty one: 0.000001 BTC and 0.001 BTC
    at 43250.75, then 0.1 ETH at 2678.45. *)
Definition threeBuys : Wallet :=
  addOrUpdateCurrency
    (addOrUpdateCurrency
       (addOrUpdateCurrency {| currencies := [] |}
          "BTC" "Bitcoin" 0.000001 43250.75)
       "BTC" "Bitcoin" 0.001 43250.75)
    "ETH" "Ethereum" 0.1 2678.45.

End Ieee.

(** ** Finding and replacing a position *)

Section find_currency.
Implicit Types (cs : list Currency) (c : Currency) (sym : string).

Lemma findCurrency_Some sym cs i c :
  findCurrency sym cs = Some (i, c) →
  cs !! i = Some c ∧ symbol c = sym.
Proof.
  unfold findCurrency. intros H.
  apply list_find_Some in H as (Hi & Hs & _). done.
Qed.

(** Replacing the found entry by one of the same symbol keeps it the
    first match. *)
Lemma findCurrency_insert sym cs i c c' :
  findCurrency sym cs = Some (i, c) →
  symbol c' = sym →
  findCurrency sym (<[i := c']> cs) = Some (i, c').
Proof.
  unfold findCurrency. intros H Hs.
  apply list_find_Some in H as (Hi & _ & Hfirst).
  apply list_find_Some. split_and!.
  - apply list_lookup_insert_eq. by eapply lookup_lt_Some.
  - done.
  - intros j y Hj Hlt. rewrite list_lookup_insert_ne in Hj by lia.
    by eapply Hfirst.
Qed.

(** A symbol that is not held is found at the end once it is pushed. *)
Lemma findCurrency_push sym cs c :
  findCurrency sym cs = None →
  symbol c = sym →
  findCurrency sym (cs ++ [c]) = Some (length cs, c).
Proof.
  unfold findCurrency. intros H Hs.
  apply list_find_Some. split_and!.
  - by rewrite lookup_app_r, Nat.sub_diag.
  - done.
  - intros j y Hj Hlt. rewrite lookup_app_l in Hj by done.
    apply list_find_None in H.
    rewrite Forall_forall in H. apply H.
    apply list_elem_of_lookup. eauto.
Qed.

(** Nothing with the symbol is left after the handler's [filter]. *)
Lemma findCurrency_filter sym cs :
  findCurrency sym (filter (λ c, symbol c ≠ sym) cs) = None.
Proof.
  unfold findCurrency. apply list_find_None, Forall_forall.
  intros c Hc. apply list_elem_of_filter in Hc as [Hne _].
  by intros ?.
Qed.
End find_currency.

(** The way the handler goes when the position covers the order. *)
Lemma sell_covered w sym amt price i c :
  findCurrency sym (currencies w) = Some (i, c) →
  amt ≤ amount c →
  sell w sym amt price =
    ({| currencies :=
          if decide (amount c - amt ≤ 0)
          then filter (λ c, symbol c ≠ sym)
                      (<[i := reduceAmount c amt]> (currencies w))
          else <[i := reduceAmount c amt]> (currencies w);
        portfolioHistory := portfolioHistory w |},
     inr (amt * price)).
Proof.
  intros Hfind Hle. unfold sell. rewrite Hfind.
  destruct (decide (amount c < amt)) as [Hlt|_]; [|done].
  by apply Qcle_not_lt in Hle.
Qed.

Lemma Qcminus_pos (x y : Qc) : y < x ↔ ¬ (x - y ≤ 0).
Proof.
  rewrite <-Qclt_nge, (Qcplus_lt_mono_r y x (- y)).
  by rewrite Qcplus_opp_r.
Qed.

(** The validators of the two routes let through only requests that meet
    the guards of [step]. *)
Lemma validators_imply_guards (amt price : Qc) :
  minAmount ≤ amt → minPrice ≤ price → 0 < amt ∧ 0 ≤ price.
Proof.
  intros Ha Hp. split.
  - by apply Qclt_le_trans with minAmount.
  - by apply Qcle_trans with minPrice.
Qed.

(** ** Selling *)

(** C1, as stated, fails: a sell does not record its price.  [btcWallet]
    holds 3 BTC quoted at 12000; selling 1 BTC at 12500 meets the conditions
    of the claim and succeeds with proceeds 12500, and the remaining position
    is still quoted at 12000 and valued at 2 * 12000, not at the sell price. *)
Lemma sell_does_not_record_price :
  let amt := qc 1 1 in
  let price := qc 12500 1 in
  let result := sell btcWallet "BTC" amt price in
  findCurrency "BTC" (currencies btcWallet) = Some (0%nat, btcPosition) ∧
  0 < amt ∧ amt ≤ amount btcPosition ∧ 0 ≤ price ∧
  snd result = inr price ∧
  ∃ c', findCurrency "BTC" (currencies (fst result)) = Some (0%nat, c') ∧
        amount c' = qc 2 1 ∧
        currentPrice c' = qc 12000 1 ∧
        currentPrice c' ≠ price ∧
        value c' = qc 24000 1 ∧
        value c' ≠ amount c' * price.
Proof.
  split; [reflexivity|]. split; [reflexivity|].
  split; [by vm_compute|]. split; [by vm_compute|].
  split; [compute_done|].
  exists (reduceAmount btcPosition (qc 1 1)).
  split; [reflexivity|]. split_and!; compute_done.
Qed.

(** C1, amended: a sell of [0 < amt ≤ amount] at a price [≥ 0] succeeds with
    proceeds [amt * price].  When [amt] is less than the held amount the
    position stays where it was, its amount is decreased by [amt], its
    [currentPrice] is the one it had before (the sell price is not stored),
    its value is the remaining amount times that [currentPrice], and its
    [profitLoss] is that value minus the remaining amount times the average
    cost.  When [amt] is the whole held amount the symbol is no longer found. *)
Theorem sell_reduces_position w sym amt price i c :
  findCurrency sym (currencies w) = Some (i, c) →
  0 < amt → amt ≤ amount c → 0 ≤ price →
  let w' := fst (sell w sym amt price) in
  snd (sell w sym amt price) = inr (amt * price) ∧
  (amt < amount c →
   ∃ c', findCurrency sym (currencies w') = Some (i, c') ∧
         amount c' = amount c - amt ∧
         currentPrice c' = currentPrice c ∧
         value c' = (amount c - amt) * currentPrice c ∧
         profitLoss c' = value c' - (amount c - amt) * averageBuyPrice c') ∧
  (amt = amount c → findCurrency sym (currencies w') = None).
Proof.
  intros Hfind _ Hle _ w'. subst w'.
  rewrite (sell_covered _ _ _ _ _ _ Hfind Hle). simpl.
  split; [done|]. split.
  - intros Hlt. apply Qcminus_pos in Hlt.
    destruct (decide (amount c - amt ≤ 0)) as [?|_]; [done|].
    exists (reduceAmount c amt). split; [|done].
    apply findCurrency_insert with c; [done|].
    apply (findCurrency_Some _ _ _ _ Hfind).
  - intros ->. unfold Qcminus. rewrite Qcplus_opp_r.
    destruct (decide (0 ≤ 0)) as [_|Hn]; [|by destruct Hn].
    apply findCurrency_filter.
Qed.

Lemma sell_reduces_position_witness :
  let w' := fst (sell btcWallet "BTC" (qc 1 1) (qc 12500 1)) in
  snd (sell btcWallet "BTC" (qc 1 1) (qc 12500 1)) = inr (qc 1 1 * qc 12500 1) ∧
  (qc 1 1 < amount btcPosition →
   ∃ c', findCurrency "BTC" (currencies w') = Some (0%nat, c') ∧
         amount c' = amount btcPosition - qc 1 1 ∧
         currentPrice c' = currentPrice btcPosition ∧
         value c' = (amount btcPosition - qc 1 1) * currentPrice btcPosition ∧
         profitLoss c' =
           value c' - (amount btcPosition - qc 1 1) * averageBuyPrice c') ∧
  (qc 1 1 = amount btcPosition → findCurrency "BTC" (currencies w') = None).
Proof.
  apply (sell_reduces_position btcWallet "BTC" (qc 1 1) (qc 12500 1)
           0%nat btcPosition).
  - reflexivity.
  - reflexivity.
  - vm_compute. discriminate.
  - vm_compute. discriminate.
Defined.

(** C2: a sell of a symbol that is not held answers [CurrencyNotFound] (the
    specification's UnknownSymbol), a sell of more than is held answers
    [InsufficientBalance], and in both cases the handler leaves the wallet it
    was given: the same positions with the same fields and the same history. *)
Theorem sell_rejected_leaves_wallet w sym amt price :
  (findCurrency sym (currencies w) = None →
   sell w sym amt price = (w, inl CurrencyNotFound)) ∧
  (∀ i c, findCurrency sym (currencies w) = Some (i, c) →
          amount c < amt →
          sell w sym amt price = (w, inl InsufficientBalance)).
Proof.
  unfold sell. split.
  - by intros ->.
  - intros i c -> Hlt. by rewrite decide_True.
Qed.

Lemma sell_rejected_leaves_wallet_witness :
  sell btcWallet "ETH" (qc 1 1) (qc 2000 1) = (btcWallet, inl CurrencyNotFound) ∧
  sell btcWallet "BTC" (qc 4 1) (qc 12000 1) = (btcWallet, inl InsufficientBalance).
Proof.
  split.
  - apply (proj1 (sell_rejected_leaves_wallet btcWallet "ETH" (qc 1 1) (qc 2000 1))).
    reflexivity.
  - apply (proj2 (sell_rejected_leaves_wallet btcWallet "BTC" (qc 4 1) (qc 12000 1))
             0%nat btcPosition).
    + reflexivity.
    + reflexivity.
Defined.

(** C4: a successful sell of less than the held amount leaves the position
    held with the average cost it had before; every other position keeps its
    place, its symbol and its average cost as well. *)
Theorem sell_keeps_averageBuyPrice w sym amt price i c :
  findCurrency sym (currencies w) = Some (i, c) →
  0 < amt → amt < amount c →
  let w' := fst (sell w sym amt price) in
  snd (sell w sym amt price) = inr (amt * price) ∧
  (∃ c', findCurrency sym (currencies w') = Some (i, c') ∧
         averageBuyPrice c' = averageBuyPrice c) ∧
  (∀ j d, currencies w !! j = Some d →
          ∃ d', currencies w' !! j = Some d' ∧
                symbol d' = symbol d ∧
                averageBuyPrice d' = averageBuyPrice d).
Proof.
  intros Hfind _ Hlt w'. subst w'.
  rewrite (sell_covered _ _ _ _ _ _ Hfind (Qclt_le_weak _ _ Hlt)). simpl.
  apply Qcminus_pos in Hlt.
  destruct (decide (amount c - amt ≤ 0)) as [?|_]; [done|].
  destruct (findCurrency_Some _ _ _ _ Hfind) as [Hi Hs].
  split_and!; [done| |].
  - exists (reduceAmount c amt). split; [|done].
    by apply findCurrency_insert with c.
  - intros j d Hj. destruct (decide (i = j)) as [<-|Hne].
    + exists (reduceAmount c amt).
      rewrite list_lookup_insert_eq by (by eapply lookup_lt_Some).
      by simplify_eq.
    + exists d. by rewrite list_lookup_insert_ne.
Qed.

Lemma sell_keeps_averageBuyPrice_witness :
  let w' := fst (sell btcWallet "BTC" (qc 1 1) (qc 12000 1)) in
  snd (sell btcWallet "BTC" (qc 1 1) (qc 12000 1)) = inr (qc 1 1 * qc 12000 1) ∧
  (∃ c', findCurrency "BTC" (currencies w') = Some (0%nat, c') ∧
         averageBuyPrice c' = averageBuyPrice btcPosition) ∧
  (∀ j d, currencies btcWallet !! j = Some d →
          ∃ d', currencies w' !! j = Some d' ∧
                symbol d' = symbol d ∧
                averageBuyPrice d' = averageBuyPrice d).
Proof.
  apply (sell_keeps_averageBuyPrice btcWallet "BTC" (qc 1 1) (qc 12000 1)
           0%nat btcPosition); reflexivity.
Defined.

(** ** Buying *)

Lemma addOrUpdateCurrencyJson_numbers w sym nm amt price :
  addOrUpdateCurrencyJson w sym nm (JNumber amt) (JNumber price)
  = Some (addOrUpdateCurrency w sym nm amt price).
Proof.
  unfold addOrUpdateCurrencyJson, addOrUpdateCurrency. simpl.
  by destruct (findCurrency sym (currencies w)) as [[i c]|].
Qed.

(** C3 fails on the code when the amount arrives as a string, which the
    validator [isFloat] lets through and nothing converts.  [btcWallet]
    holds 3 BTC at an average of 11000; the body
    [{symbol: "BTC", name: "Bitcoin", amount: "1", price: 13000}] reads as a
    buy of 1 at 13000, and the method computes [3 + "1" = "31"]: the position
    is left with an amount of 31 instead of 4 and an average cost of
    46000/31 instead of 46000/4. *)
Theorem buy_string_amount_is_concatenated :
  let amountJs := JString "1" in
  let priceJs := JNumber (qc 13000 1) in
  toNumber amountJs = Some (qc 1 1) ∧
  ∃ w' c',
    addOrUpdateCurrencyJson btcWallet "BTC" "Bitcoin" amountJs priceJs = Some w' ∧
    findCurrency "BTC" (currencies w') = Some (0%nat, c') ∧
    amount c' = qc 31 1 ∧
    amount c' ≠ amount btcPosition + qc 1 1 ∧
    averageBuyPrice c' = qc 46000 31 ∧
    averageBuyPrice c' ≠
      (amount btcPosition * averageBuyPrice btcPosition + qc 1 1 * qc 13000 1)
      / (amount btcPosition + qc 1 1).
Proof.
  split; [compute_done|].
  exists {| currencies :=
              [mergeBought btcPosition (qc 31 1) (qc 1 1) (qc 13000 1)];
            portfolioHistory := [] |},
         (mergeBought btcPosition (qc 31 1) (qc 1 1) (qc 13000 1)).
  split_and!; [compute_done | reflexivity | compute_done..].
Qed.

(** C9 fails on the code for the same reason.  The bodies with the amounts
    ["2"] at 10000 and ["1"] at 13000 read as buys of 2 and of 1; made in
    this order on an empty wallet they leave an average cost of 33000/21
    ([2 + "1" = "21"]), made in the other order 33000/12
    ([1 + "2" = "12"]).  The two differ, and neither is the weighted mean
    33000/3. *)
Theorem buys_string_amounts_depend_on_order :
  let weightedMean :=
    (qc 2 1 * qc 10000 1 + qc 1 1 * qc 13000 1) / (qc 2 1 + qc 1 1) in
  toNumber (JString "2") = Some (qc 2 1) ∧
  toNumber (JString "1") = Some (qc 1 1) ∧
  ∃ c12 c21,
    afterTwoBuys emptyWallet "BTC" "Bitcoin"
      (JString "2") (JNumber (qc 10000 1)) (JString "1") (JNumber (qc 13000 1))
      = Some (0%nat, c12) ∧
    afterTwoBuys emptyWallet "BTC" "Bitcoin"
      (JString "1") (JNumber (qc 13000 1)) (JString "2") (JNumber (qc 10000 1))
      = Some (0%nat, c21) ∧
    averageBuyPrice c12 = qc 33000 21 ∧
    averageBuyPrice c21 = qc 33000 12 ∧
    averageBuyPrice c12 ≠ averageBuyPrice c21 ∧
    averageBuyPrice c12 ≠ weightedMean ∧
    averageBuyPrice c21 ≠ weightedMean.
Proof.
  split; [compute_done|]. split; [compute_done|].
  exists (mergeBought (newCurrency "BTC" "Bitcoin" (qc 2 1) (qc 10000 1))
            (qc 21 1) (qc 1 1) (qc 13000 1)),
         (mergeBought (newCurrency "BTC" "Bitcoin" (qc 1 1) (qc 13000 1))
            (qc 12 1) (qc 2 1) (qc 10000 1)).
  split_and!; compute_done.
Qed.

(** X30: when the amount and the price arrive as numbers, a buy of a
    positive amount at a non-negative price into a held position of
    positive amount adds the amount, sets the average cost to
    [(oldAmount * oldAverage + amount * price) / (oldAmount + amount)] (the
    divisor is not zero), sets [currentPrice] to the buy price, and leaves
    [value], [profitLoss] and [profitLossPercentage] as the formulas of the
    data model give them from the new amount, price and average cost. *)
Theorem buy_numbers_merges_position w sym nm amt price i c :
  findCurrency sym (currencies w) = Some (i, c) →
  0 < amount c → 0 < amt → 0 ≤ price →
  ∃ w' c',
    addOrUpdateCurrencyJson w sym nm (JNumber amt) (JNumber price) = Some w' ∧
    findCurrency sym (currencies w') = Some (i, c') ∧
    amount c + amt ≠ 0 ∧
    amount c' = amount c + amt ∧
    averageBuyPrice c' =
      (amount c * averageBuyPrice c + amt * price) / (amount c + amt) ∧
    currentPrice c' = price ∧
    value c' = amount c' * currentPrice c' ∧
    profitLoss c' = value c' - amount c' * averageBuyPrice c' ∧
    profitLossPercentage c' =
      (if decide (0 < averageBuyPrice c')
       then (currentPrice c' - averageBuyPrice c') / averageBuyPrice c' * hundred
       else 0).
Proof.
  intros Hfind Hheld Hamt _.
  exists (addOrUpdateCurrency w sym nm amt price), (buyMore c amt price).
  split_and!; try done.
  - apply addOrUpdateCurrencyJson_numbers.
  - unfold addOrUpdateCurrency. rewrite Hfind. simpl.
    apply findCurrency_insert with c; [done|].
    apply (findCurrency_Some _ _ _ _ Hfind).
  - apply not_eq_sym, Qclt_not_eq. by apply Qcplus_pos_pos.
Qed.

Lemma buy_numbers_merges_position_witness :
  ∃ w' c',
    addOrUpdateCurrencyJson btcWallet "BTC" "Bitcoin"
      (JNumber (qc 1 1)) (JNumber (qc 13000 1)) = Some w' ∧
    findCurrency "BTC" (currencies w') = Some (0%nat, c') ∧
    amount btcPosition + qc 1 1 ≠ 0 ∧
    amount c' = amount btcPosition + qc 1 1 ∧
    averageBuyPrice c' =
      (amount btcPosition * averageBuyPrice btcPosition + qc 1 1 * qc 13000 1)
      / (amount btcPosition + qc 1 1) ∧
    currentPrice c' = qc 13000 1 ∧
    value c' = amount c' * currentPrice c' ∧
    profitLoss c' = value c' - amount c' * averageBuyPrice c' ∧
    profitLossPercentage c' =
      (if decide (0 < averageBuyPrice c')
       then (currentPrice c' - averageBuyPrice c') / averageBuyPrice c' * hundred
       else 0).
Proof.
  apply (buy_numbers_merges_position btcWallet "BTC" "Bitcoin" (qc 1 1)
           (qc 13000 1) 0%nat btcPosition).
  - reflexivity.
  - reflexivity.
  - reflexivity.
  - vm_compute. discriminate.
Defined.

(** X31: when the amounts and the prices arrive as numbers, two buys of a
    symbol that is not held, of positive amounts, leave the same average
    cost in either order: [(a1 * p1 + a2 * p2) / (a1 + a2)], computed with
    the two sums taken in the order of the buys. *)
Theorem buys_numbers_commute w sym nm a1 p1 a2 p2 :
  findCurrency sym (currencies w) = None →
  0 < a1 → 0 < a2 →
  ∃ i c12 c21,
    afterTwoBuys w sym nm (JNumber a1) (JNumber p1) (JNumber a2) (JNumber p2)
      = Some (i, c12) ∧
    afterTwoBuys w sym nm (JNumber a2) (JNumber p2) (JNumber a1) (JNumber p1)
      = Some (i, c21) ∧
    averageBuyPrice c12 = averageBuyPrice c21 ∧
    averageBuyPrice c12 = (a1 * p1 + a2 * p2) / (a1 + a2) ∧
    averageBuyPrice c21 = (a2 * p2 + a1 * p1) / (a2 + a1) ∧
    a1 + a2 ≠ 0.
Proof.
  intros Hfresh H1 H2.
  assert (Hafter : ∀ a p a' p',
    afterTwoBuys w sym nm (JNumber a) (JNumber p) (JNumber a') (JNumber p')
    = Some (length (currencies w), buyMore (newCurrency sym nm a p) a' p')).
  { intros a p a' p'. unfold afterTwoBuys.
    rewrite addOrUpdateCurrencyJson_numbers. simpl.
    rewrite addOrUpdateCurrencyJson_numbers. simpl.
    unfold addOrUpdateCurrency at 2. rewrite Hfresh.
    unfold addOrUpdateCurrency. simpl.
    rewrite (findCurrency_push sym (currencies w) (newCurrency sym nm a p))
      by done.
    simpl. eapply findCurrency_insert; [|done].
    by apply findCurrency_push. }
  exists (length (currencies w)),
    (buyMore (newCurrency sym nm a1 p1) a2 p2),
    (buyMore (newCurrency sym nm a2 p2) a1 p1).
  split_and!; [apply Hafter | apply Hafter | | done | done |].
  - simpl. by rewrite (Qcplus_comm (a1 * p1)), (Qcplus_comm a1).
  - apply not_eq_sym, Qclt_not_eq. by apply Qcplus_pos_pos.
Qed.

Lemma buys_numbers_commute_witness :
  ∃ i c12 c21,
    afterTwoBuys emptyWallet "BTC" "Bitcoin"
      (JNumber (qc 2 1)) (JNumber (qc 10000 1))
      (JNumber (qc 1 1)) (JNumber (qc 13000 1)) = Some (i, c12) ∧
    afterTwoBuys emptyWallet "BTC" "Bitcoin"
      (JNumber (qc 1 1)) (JNumber (qc 13000 1))
      (JNumber (qc 2 1)) (JNumber (qc 10000 1)) = Some (i, c21) ∧
    averageBuyPrice c12 = averageBuyPrice c21 ∧
    averageBuyPrice c12
      = (qc 2 1 * qc 10000 1 + qc 1 1 * qc 13000 1) / (qc 2 1 + qc 1 1) ∧
    averageBuyPrice c21
      = (qc 1 1 * qc 13000 1 + qc 2 1 * qc 10000 1) / (qc 1 1 + qc 2 1) ∧
    qc 2 1 + qc 1 1 ≠ 0.
Proof.
  apply (buys_numbers_commute emptyWallet "BTC" "Bitcoin"
           (qc 2 1) (qc 10000 1) (qc 1 1) (qc 13000 1)); reflexivity.
Defined.

(** ** Price updates *)

(** What [updateCurrencyPrices] leaves at each place of the array. *)
Lemma updateCurrencyPrices_lookup w (priceData : gmap string Qc) i c :
  currencies w !! i = Some c →
  currencies (updateCurrencyPrices w priceData) !! i
    = Some (refreshPrice (priceData !! symbol c) c).
Proof. intros Hi. simpl. by rewrite list_lookup_fmap, Hi. Qed.

(** C10: a position whose symbol is mapped to the price 0 is left as it
    was, in every field: the zero does not pass the test [if (newPrice)]. *)
Theorem updateCurrencyPrices_zero_price w (priceData : gmap string Qc) i c :
  currencies w !! i = Some c →
  priceData !! symbol c = Some 0 →
  currencies (updateCurrencyPrices w priceData) !! i = Some c.
Proof.
  intros Hi Hzero.
  rewrite (updateCurrencyPrices_lookup _ _ _ _ Hi), Hzero.
  unfold refreshPrice. by rewrite decide_True.
Qed.

Lemma updateCurrencyPrices_zero_price_witness :
  currencies (updateCurrencyPrices btcWallet {[ "BTC"%string := 0 ]}) !! 0%nat
    = Some btcPosition.
Proof.
  apply (updateCurrencyPrices_zero_price btcWallet {[ "BTC"%string := 0 ]}
           0%nat btcPosition).
  - reflexivity.
  - reflexivity.
Defined.

(** C6, as stated, fails at the price 0, which is a price [≥ 0]: with BTC
    mapped to 0 the position of [btcWallet] keeps its quote of 12000 and its
    value of 36000 instead of being revalued at 0. *)
Lemma updateCurrencyPrices_ignores_zero :
  let priceData : gmap string Qc := {[ "BTC"%string := 0 ]} in
  priceData !! symbol btcPosition = Some 0 ∧
  0 ≤ 0 ∧
  ∃ c', currencies (updateCurrencyPrices btcWallet priceData) !! 0%nat = Some c' ∧
        currentPrice c' = qc 12000 1 ∧
        currentPrice c' ≠ 0 ∧
        value c' = qc 36000 1 ∧
        value c' ≠ amount c' * 0.
Proof.
  split; [reflexivity|]. split; [done|].
  exists btcPosition. split; [reflexivity|]. split_and!; compute_done.
Qed.

(** C6, amended: a position whose symbol is mapped to a price [> 0] keeps
    its place, symbol, name, amount and average cost, has [currentPrice] set
    to the mapped price and [value], [profitLoss] and [profitLossPercentage]
    recomputed from it; a position whose symbol is not in the mapping is left
    as it was, in every field. *)
Theorem updateCurrencyPrices_refreshes w (priceData : gmap string Qc) i c :
  currencies w !! i = Some c →
  let w' := updateCurrencyPrices w priceData in
  (∀ p, priceData !! symbol c = Some p → 0 < p →
        ∃ c', currencies w' !! i = Some c' ∧
              symbol c' = symbol c ∧
              name c' = name c ∧
              amount c' = amount c ∧
              averageBuyPrice c' = averageBuyPrice c ∧
              currentPrice c' = p ∧
              value c' = amount c * p ∧
              profitLoss c' = value c' - amount c * averageBuyPrice c ∧
              profitLossPercentage c' =
                (if decide (0 < averageBuyPrice c)
                 then (p - averageBuyPrice c) / averageBuyPrice c * hundred
                 else 0)) ∧
  (priceData !! symbol c = None → currencies w' !! i = Some c).
Proof.
  intros Hi w'. subst w'.
  rewrite (updateCurrencyPrices_lookup _ _ _ _ Hi). split.
  - intros p -> Hp. unfold refreshPrice.
    rewrite decide_False by (by apply not_eq_sym, Qclt_not_eq).
    eexists. split; [reflexivity|]. by split_and!.
  - by intros ->.
Qed.

Lemma updateCurrencyPrices_refreshes_witness :
  let w' := updateCurrencyPrices btcWallet {[ "BTC"%string := qc 12500 1 ]} in
  (∃ c', currencies w' !! 0%nat = Some c' ∧
         currentPrice c' = qc 12500 1 ∧
         value c' = amount btcPosition * qc 12500 1) ∧
  currencies (updateCurrencyPrices btcWallet {[ "ETH"%string := qc 2000 1 ]})
    !! 0%nat = Some btcPosition.
Proof.
  split.
  - destruct (updateCurrencyPrices_refreshes btcWallet
                {[ "BTC"%string := qc 12500 1 ]} 0%nat btcPosition)
      as [Hmapped _]; [reflexivity|].
    destruct (Hmapped (qc 12500 1))
      as (c' & Hc' & _ & _ & _ & _ & Hprice & Hvalue & _);
      [reflexivity | reflexivity |].
    exists c'. by split_and!.
  - destruct (updateCurrencyPrices_refreshes btcWallet
                {[ "ETH"%string := qc 2000 1 ]} 0%nat btcPosition)
      as [_ Hmissing]; [reflexivity|].
    apply Hmissing. reflexivity.
Defined.

(** ** Snapshots *)

(** C8, as stated, fails across a change of daylight time.  On a host in
    New York, at noon on 2 November 2025, [setDate(getDate() - 365)] gives
    noon on 2 November 2024, which was on daylight time: 365 days and one
    hour before [now].  The record of [yearOldWallet], dated 365 days and 30
    minutes before [now], is strictly earlier than [now] minus 365 days of
    24 hours, and [recordPortfolioSnapshot] keeps it. *)
Lemma recordPortfolioSnapshot_keeps_over_a_year :
  let now := noonAfterChange in
  let w' := recordPortfolioSnapshot newYork now yearOldWallet in
  shiftDate newYork (-365) now = Some (now - 365 * dayMs - hourMs)%Z ∧
  (date yearOldRecord < now - 365 * dayMs)%Z ∧
  yearOldRecord ∈ portfolioHistory yearOldWallet ∧
  yearOldRecord ∈ portfolioHistory w'.
Proof.
  split_and!.
  - reflexivity.
  - reflexivity.
  - apply list_elem_of_here.
  - apply list_elem_of_here.
Qed.

(** C8, amended: [recordPortfolioSnapshot] at the instant [now] builds a
    snapshot dated [now], with the wallet's [totalPortfolioValue] and one
    entry (symbol, amount, current price, value) per position in order; the
    new history is the old one followed by that snapshot, with every record
    removed that is dated strictly before the cutoff, the instant that
    [setDate(getDate() - 365)] gives for [now]: the same local time of day
    365 calendar days earlier in the host's time zone.  The filter runs over
    the whole list, the new snapshot included, which passes it and is the
    last record whenever the cutoff is not after [now].  The cutoff is [now]
    minus 365 days of 86400000 ms when the zone's offset is the same at both
    ends. *)
Theorem recordPortfolioSnapshot_appends_then_prunes tz now w :
  let w' := recordPortfolioSnapshot tz now w in
  let snapshot := makeSnapshot now w in
  let cutoffDate := shiftDate tz (-365) now in
  let stale := λ record : Snapshot,
    match cutoffDate with
    | Some cutoff => (date record < cutoff)%Z
    | None => True
    end in
  date snapshot = now ∧
  totalValue snapshot = totalPortfolioValue w ∧
  length (snap_currencies snapshot) = length (currencies w) ∧
  (∀ i c, currencies w !! i = Some c →
          snap_currencies snapshot !! i =
            Some {| snap_symbol := symbol c; snap_amount := amount c;
                    snap_price := currentPrice c; snap_value := value c |}) ∧
  (∀ record, record ∈ portfolioHistory w' ↔
             (record ∈ portfolioHistory w ∨ record = snapshot) ∧
             ¬ stale record) ∧
  (¬ stale snapshot →
   portfolioHistory w' =
     filter (λ record, onOrAfter cutoffDate (date record)) (portfolioHistory w)
     ++ [snapshot]) ∧
  (offsetOfLocal tz (now + offsetAt tz now - 365 * dayMs) = offsetAt tz now →
   cutoffDate = timeClip (now - 365 * dayMs)) ∧
  currencies w' = currencies w.
Proof.
  intros w' snapshot cutoffDate stale.
  assert (Hstale : ∀ record,
    onOrAfter (shiftDate tz (-365) now) (date record) ↔ ¬ stale record).
  { intros record. subst stale cutoffDate. simpl.
    destruct (shiftDate tz (-365) now); simpl; [lia|tauto]. }
  split_and!; try done.
  - subst snapshot. simpl. by rewrite length_fmap.
  - intros i c Hi. subst snapshot. simpl. by rewrite list_lookup_fmap, Hi.
  - intros record. subst w'. simpl.
    rewrite list_elem_of_filter, elem_of_app, list_elem_of_singleton.
    rewrite (Hstale record). tauto.
  - intros Hfresh. subst w' cutoffDate. simpl. rewrite filter_app. f_equal.
    rewrite filter_cons_True; [done|]. by apply Hstale.
  - intros Hsame. subst cutoffDate. unfold shiftDate.
    replace (-365 * dayMs)%Z with (- (365 * dayMs))%Z by lia.
    rewrite Z.add_opp_r, Hsame. f_equal. lia.
Qed.

(** ** Invariants of the reachable wallets *)

Section preservation.
Implicit Types (c : Currency) (w : Wallet).

Lemma newCurrency_ok sym nm amt price :
  0 < amt → 0 ≤ price → positionOk (newCurrency sym nm amt price).
Proof. intros Ha Hp. split; simpl; [done | done | ring]. Qed.

Lemma buyMore_ok c amt price :
  positionOk c → 0 < amt → 0 ≤ price → positionOk (buyMore c amt price).
Proof.
  intros [Hc Havg _] Ha Hp.
  assert (0 < amount c + amt) as Hsum by (by apply Qcplus_pos_pos).
  split; simpl; [done | | done].
  unfold Qcdiv. apply Qcmult_nonneg_nonneg.
  - apply Qcplus_nonneg_nonneg; apply Qcmult_nonneg_nonneg;
      auto using Qclt_le_weak.
  - by apply Qclt_le_weak, Qcinv_pos.
Qed.

Lemma reduceAmount_ok c amt :
  positionOk c → ¬ (amount c - amt ≤ 0) → positionOk (reduceAmount c amt).
Proof.
  intros [_ Havg _] Hleft. split; simpl; [|done|done].
  by apply Qclt_nge.
Qed.

Lemma refreshPrice_ok newPrice c :
  positionOk c → positionOk (refreshPrice newPrice c).
Proof.
  intros Hc. destruct newPrice as [p|]; simpl; [|done].
  destruct (decide (p = 0)); [done|].
  destruct Hc. by split.
Qed.

Lemma addOrUpdateCurrency_ok w sym nm amt price :
  walletOk w → 0 < amt → 0 ≤ price →
  walletOk (addOrUpdateCurrency w sym nm amt price).
Proof.
  unfold walletOk, addOrUpdateCurrency. intros Hw Ha Hp.
  destruct (findCurrency sym (currencies w)) as [[i c]|] eqn:Hfind; simpl.
  - apply Forall_insert; [done|].
    apply buyMore_ok; [|done..].
    apply findCurrency_Some in Hfind as [Hi _].
    by eapply Forall_lookup_1.
  - apply Forall_app. split; [done|].
    apply Forall_singleton. by apply newCurrency_ok.
Qed.

Lemma sell_ok w sym amt price :
  walletOk w → walletOk (fst (sell w sym amt price)).
Proof.
  unfold walletOk, sell. intros Hw.
  destruct (findCurrency sym (currencies w)) as [[i c]|] eqn:Hfind; [|done].
  destruct (decide (amount c < amt)); [done|]. simpl.
  apply findCurrency_Some in Hfind as [Hi Hs].
  destruct (decide (amount c - amt ≤ 0)) as [Hgone|Hleft].
  - apply Forall_forall. intros d Hd.
    apply list_elem_of_filter in Hd as [Hne Hd].
    apply list_elem_of_lookup in Hd as [j Hj].
    apply list_lookup_insert_Some in Hj as [(_ & <- & _)|[_ Hj]].
    + by destruct Hne.
    + by eapply Forall_lookup_1.
  - apply Forall_insert; [done|].
    apply reduceAmount_ok; [|done]. by eapply Forall_lookup_1.
Qed.

Lemma updateCurrencyPrices_ok w (priceData : gmap string Qc) :
  walletOk w → walletOk (updateCurrencyPrices w priceData).
Proof.
  unfold walletOk. intros Hw. simpl. apply Forall_fmap.
  eapply Forall_impl; [done|]. intros c Hc. by apply refreshPrice_ok.
Qed.

Lemma step_ok w w' : step w w' → walletOk w → walletOk w'.
Proof.
  destruct 1; intros Hw;
    auto using addOrUpdateCurrency_ok, sell_ok, updateCurrencyPrices_ok.
Qed.

Lemma reachable_ok w : reachable w → walletOk w.
Proof.
  induction 1 as [|w w' _ IH Hstep].
  - by apply Forall_nil.
  - by eapply step_ok.
Qed.
End preservation.

(** C5: every position of a wallet reachable from the empty one by buys,
    sells and price updates is held in an amount strictly greater than 0;
    and a sell of exactly the held amount succeeds and leaves no position
    with that symbol in the wallet. *)
Theorem reachable_amounts_positive :
  (∀ w, reachable w → ∀ c, c ∈ currencies w → 0 < amount c) ∧
  (∀ w sym price i c,
     findCurrency sym (currencies w) = Some (i, c) →
     let w' := fst (sell w sym (amount c) price) in
     snd (sell w sym (amount c) price) = inr (amount c * price) ∧
     findCurrency sym (currencies w') = None ∧
     ∀ d, d ∈ currencies w' → symbol d ≠ sym).
Proof.
  split.
  - intros w Hw c Hc. apply reachable_ok in Hw.
    unfold walletOk in Hw. rewrite Forall_forall in Hw.
    by apply Hw.
  - intros w sym price i c Hfind w'. subst w'.
    rewrite (sell_covered _ _ _ _ _ _ Hfind (Qcle_refl _)). simpl.
    unfold Qcminus. rewrite Qcplus_opp_r.
    destruct (decide (0 ≤ 0)) as [_|Hn]; [|by destruct Hn].
    split_and!; [done | apply findCurrency_filter |].
    intros d Hd. by apply list_elem_of_filter in Hd as [Hne _].
Qed.

(** [btcWallet] is what the scenario of the specification reaches: buy 2 BTC
    at 10000, buy 1 BTC at 13000, then quote BTC at 12000. *)
Lemma btcWallet_scenario :
  updateCurrencyPrices
    (addOrUpdateCurrency
       (addOrUpdateCurrency emptyWallet "BTC" "Bitcoin" (qc 2 1) (qc 10000 1))
       "BTC" "Bitcoin" (qc 1 1) (qc 13000 1))
    {[ "BTC"%string := qc 12000 1 ]}
  = btcWallet.
Proof. compute_done. Qed.

Lemma btcWallet_reachable : reachable btcWallet.
Proof.
  rewrite <-btcWallet_scenario.
  eapply reachable_step; [|apply step_prices].
  eapply reachable_step; [|by apply step_buy].
  eapply reachable_step; [|by apply step_buy].
  apply reachable_empty.
Qed.

Lemma reachable_amounts_positive_witness :
  0 < amount btcPosition ∧
  (let w' := fst (sell btcWallet "BTC" (amount btcPosition) (qc 12000 1)) in
   snd (sell btcWallet "BTC" (amount btcPosition) (qc 12000 1))
     = inr (amount btcPosition * qc 12000 1) ∧
   findCurrency "BTC" (currencies w') = None ∧
   ∀ d, d ∈ currencies w' → symbol d ≠ "BTC"%string).
Proof.
  split.
  - apply (proj1 reachable_amounts_positive btcWallet btcWallet_reachable).
    apply list_elem_of_singleton. reflexivity.
  - apply (proj2 reachable_amounts_positive btcWallet "BTC" (qc 12000 1)
             0%nat btcPosition).
    reflexivity.
Defined.

(** ** Sums over the positions *)

Lemma sumFrom_snoc f a cs c : sumFrom f a (cs ++ [c]) = sumFrom f a cs + f c.
Proof. unfold sumFrom. by rewrite foldl_app. Qed.

Lemma sum_invested_nonneg cs :
  Forall positionOk cs →
  0 ≤ sumFrom (λ c, amount c * averageBuyPrice c) 0 cs.
Proof.
  induction cs as [|c cs IH] using rev_ind; intros Hok.
  - done.
  - apply Forall_app in Hok as [Hcs Hc].
    apply Forall_singleton in Hc as [Hamt Havg _].
    rewrite sumFrom_snoc. apply Qcplus_nonneg_nonneg; [by apply IH|].
    apply Qcmult_nonneg_nonneg; [by apply Qclt_le_weak | done].
Qed.

(** ** Further properties of the ledger operations *)

Lemma sumFrom_shift f a cs : sumFrom f a cs = a + sumFrom f 0 cs.
Proof.
  revert a. induction cs as [|c cs IH]; intros a; unfold sumFrom in *; simpl.
  - ring.
  - rewrite (IH (a + f c)), (IH (0 + f c)). ring.
Qed.

Lemma sumFrom_cons f c cs : sumFrom f 0 (c :: cs) = f c + sumFrom f 0 cs.
Proof.
  change (sumFrom f 0 (c :: cs)) with (sumFrom f (0 + f c) cs).
  rewrite sumFrom_shift. ring.
Qed.

Lemma filter_all {A} (P : A → Prop) `{∀ x, Decision (P x)} (l : list A) :
  Forall P l → filter P l = l.
Proof.
  induction 1 as [|x l Hx _ IH]; [done|].
  by rewrite filter_cons_True, IH.
Qed.

Lemma symbols_insert (cs : list Currency) (i : nat) c x :
  cs !! i = Some c → symbol x = symbol c →
  symbol <$> <[i := x]> cs = symbol <$> cs.
Proof.
  intros Hi Hs. rewrite list_fmap_insert, Hs.
  apply list_insert_id. by rewrite list_lookup_fmap, Hi.
Qed.

Lemma symbols_refreshPrice (priceData : gmap string Qc) (cs : list Currency) :
  symbol <$> ((λ c, refreshPrice (priceData !! symbol c) c) <$> cs)
  = symbol <$> cs.
Proof.
  rewrite <-list_fmap_compose. apply list_fmap_ext. intros _ c _. simpl.
  unfold refreshPrice. destruct (priceData !! symbol c) as [p|]; [|done].
  by destruct (decide (p = 0)).
Qed.

Lemma findCurrency_None_symbols sym (cs : list Currency) :
  findCurrency sym cs = None → sym ∉ symbol <$> cs.
Proof.
  unfold findCurrency. intros Hnone Hin.
  apply list_find_None in Hnone. rewrite Forall_forall in Hnone.
  apply list_elem_of_fmap in Hin as (c & -> & Hc). by apply (Hnone c).
Qed.

Lemma addOrUpdateCurrency_symbols w sym nm amt price :
  NoDup (symbols w) → NoDup (symbols (addOrUpdateCurrency w sym nm amt price)).
Proof.
  unfold symbols, addOrUpdateCurrency. intros Hnd.
  destruct (findCurrency sym (currencies w)) as [[i c]|] eqn:Hfind; simpl.
  - apply findCurrency_Some in Hfind as [Hi _].
    by rewrite (symbols_insert _ _ c).
  - rewrite fmap_app. apply NoDup_app. split_and!; [done| |apply NoDup_singleton].
    intros s Hs ->%list_elem_of_singleton.
    by apply findCurrency_None_symbols in Hfind.
Qed.

Lemma sell_symbols w sym amt price :
  NoDup (symbols w) → NoDup (symbols (fst (sell w sym amt price))).
Proof.
  unfold symbols, sell. intros Hnd.
  destruct (findCurrency sym (currencies w)) as [[i c]|] eqn:Hfind; [|done].
  destruct (decide (amount c < amt)); [done|]. simpl.
  apply findCurrency_Some in Hfind as [Hi _].
  assert (NoDup (symbol <$> <[i := reduceAmount c amt]> (currencies w)))
    as Hnd' by (by rewrite (symbols_insert _ _ c)).
  destruct (decide (amount c - amt ≤ 0)); [|done].
  eapply sublist_NoDup; [exact Hnd' | apply fmap_sublist, sublist_filter].
Qed.

Lemma reachable_symbols w : reachable w → NoDup (symbols w).
Proof.
  induction 1 as [|w w' _ IH Hstep].
  - apply NoDup_nil_2.
  - destruct Hstep.
    + by apply addOrUpdateCurrency_symbols.
    + by apply sell_symbols.
    + unfold symbols. simpl. by rewrite symbols_refreshPrice.
Qed.

(** X1: the first buy of a symbol that is not held opens a position at the
    end of the list, with the bought amount, the buy price as average cost
    and as current price, the value [amount * price] and no profit or loss;
    the positions that were there keep their places and all their fields. *)
Theorem first_buy_opens_position w sym nm amt price :
  findCurrency sym (currencies w) = None →
  let w' := addOrUpdateCurrency w sym nm amt price in
  length (currencies w') = S (length (currencies w)) ∧
  (∃ c', findCurrency sym (currencies w') = Some (length (currencies w), c') ∧
         symbol c' = sym ∧ name c' = nm ∧ amount c' = amt ∧
         averageBuyPrice c' = price ∧ currentPrice c' = price ∧
         value c' = amt * price ∧ profitLoss c' = 0 ∧
         profitLossPercentage c' = 0) ∧
  (∀ j d, currencies w !! j = Some d → currencies w' !! j = Some d).
Proof.
  intros Hfresh w'. subst w'. unfold addOrUpdateCurrency. rewrite Hfresh.
  simpl. split_and!.
  - rewrite length_app. simpl. lia.
  - exists (newCurrency sym nm amt price). split; [|done].
    by apply findCurrency_push.
  - intros j d Hj. by apply lookup_app_l_Some.
Qed.

Lemma first_buy_opens_position_witness :
  let w' := addOrUpdateCurrency btcWallet "ETH" "Ethereum" (qc 5 1) (qc 2000 1) in
  length (currencies w') = 2%nat ∧
  (∃ c', findCurrency "ETH" (currencies w') = Some (1%nat, c') ∧
         symbol c' = "ETH"%string ∧ name c' = "Ethereum"%string ∧
         amount c' = qc 5 1 ∧
         averageBuyPrice c' = qc 2000 1 ∧ currentPrice c' = qc 2000 1 ∧
         value c' = qc 5 1 * qc 2000 1 ∧ profitLoss c' = 0 ∧
         profitLossPercentage c' = 0) ∧
  (∀ j d, currencies btcWallet !! j = Some d → currencies w' !! j = Some d).
Proof.
  apply (first_buy_opens_position btcWallet "ETH" "Ethereum" (qc 5 1) (qc 2000 1)).
  reflexivity.
Defined.

(** X2: whichever branch it takes, a buy leaves every position of another
    symbol in its place with all its fields, and leaves the history alone. *)
Theorem buy_leaves_other_positions w sym nm amt price j d :
  currencies w !! j = Some d →
  symbol d ≠ sym →
  let w' := addOrUpdateCurrency w sym nm amt price in
  currencies w' !! j = Some d ∧ portfolioHistory w' = portfolioHistory w.
Proof.
  intros Hj Hne w'. subst w'. unfold addOrUpdateCurrency.
  destruct (findCurrency sym (currencies w)) as [[i c]|] eqn:Hfind; simpl.
  - split; [|done]. apply findCurrency_Some in Hfind as [Hi Hs].
    rewrite list_lookup_insert_ne; [done|].
    intros ->. by simplify_eq.
  - split; [|done]. by apply lookup_app_l_Some.
Qed.

Lemma buy_leaves_other_positions_witness :
  let w' := addOrUpdateCurrency btcWallet "ETH" "Ethereum" (qc 5 1) (qc 2000 1) in
  currencies w' !! 0%nat = Some btcPosition ∧
  portfolioHistory w' = portfolioHistory btcWallet.
Proof.
  apply (buy_leaves_other_positions btcWallet "ETH" "Ethereum" (qc 5 1)
           (qc 2000 1) 0%nat btcPosition).
  - reflexivity.
  - discriminate.
Defined.

Lemma twoPositionWallet_reachable : reachable twoPositionWallet.
Proof.
  eapply reachable_step; [apply btcWallet_reachable|].
  by apply step_buy.
Qed.

(** X3: a wallet reachable from the empty one holds at most one position per
    symbol: positions at two different places have different symbols. *)
Theorem reachable_one_position_per_symbol w i j c d :
  reachable w → i ≠ j →
  currencies w !! i = Some c → currencies w !! j = Some d →
  symbol c ≠ symbol d.
Proof.
  intros Hw Hne Hi Hj Hs. apply reachable_symbols in Hw. apply Hne.
  eapply NoDup_lookup; [done| |].
  - unfold symbols. by rewrite list_lookup_fmap, Hi.
  - unfold symbols. by rewrite list_lookup_fmap, Hj, Hs.
Qed.

Lemma reachable_one_position_per_symbol_witness :
  symbol btcPosition
  ≠ symbol (newCurrency "ETH" "Ethereum" (qc 5 1) (qc 2000 1)).
Proof.
  apply (reachable_one_position_per_symbol twoPositionWallet 0 1
           btcPosition (newCurrency "ETH" "Ethereum" (qc 5 1) (qc 2000 1))
           twoPositionWallet_reachable).
  - lia.
  - reflexivity.
  - reflexivity.
Defined.

Lemma sumFrom_fmap f (g : Currency → Currency) cs :
  sumFrom f 0 (g <$> cs) = sumFrom (f ∘ g) 0 cs.
Proof.
  induction cs as [|c cs IH]; [done|].
  rewrite fmap_cons, !sumFrom_cons, IH. done.
Qed.

Lemma sumFrom_ext f g cs :
  (∀ c, c ∈ cs → f c = g c) → sumFrom f 0 cs = sumFrom g 0 cs.
Proof.
  induction cs as [|c cs IH]; intros Hfg; [done|].
  rewrite !sumFrom_cons, IH, (Hfg c).
  - done.
  - apply list_elem_of_here.
  - intros d Hd. apply Hfg. by apply list_elem_of_further.
Qed.

Lemma totalInvestment_sumFrom w :
  totalInvestment w = sumFrom (λ c, amount c * averageBuyPrice c) 0 (currencies w).
Proof. reflexivity. Qed.

(** X6: a price update never touches the cost basis: every position keeps
    its place, symbol, name, amount and average cost, and the total
    invested is what it was, whatever the mapping holds. *)
Theorem updateCurrencyPrices_keeps_cost w (priceData : gmap string Qc) :
  let w' := updateCurrencyPrices w priceData in
  length (currencies w') = length (currencies w) ∧
  (∀ i c, currencies w !! i = Some c →
          ∃ c', currencies w' !! i = Some c' ∧
                symbol c' = symbol c ∧ name c' = name c ∧
                amount c' = amount c ∧
                averageBuyPrice c' = averageBuyPrice c) ∧
  totalInvestment w' = totalInvestment w ∧
  portfolioHistory w' = portfolioHistory w.
Proof.
  assert (Hkeep : ∀ o c,
    symbol (refreshPrice o c) = symbol c ∧ name (refreshPrice o c) = name c ∧
    amount (refreshPrice o c) = amount c ∧
    averageBuyPrice (refreshPrice o c) = averageBuyPrice c).
  { intros [p|] c; simpl; [|done]. by destruct (decide (p = 0)). }
  intros w'. subst w'. split_and!.
  - simpl. by rewrite length_fmap.
  - intros i c Hi. rewrite (updateCurrencyPrices_lookup _ _ _ _ Hi).
    eexists. split; [done|]. apply Hkeep.
  - rewrite !totalInvestment_sumFrom. simpl. rewrite sumFrom_fmap.
    apply sumFrom_ext. intros c _. simpl.
    by destruct (Hkeep (priceData !! symbol c) c) as (_ & _ & -> & ->).
  - done.
Qed.

(** X7: applying the same price mapping a second time changes nothing. *)
Theorem updateCurrencyPrices_idempotent w (priceData : gmap string Qc) :
  updateCurrencyPrices (updateCurrencyPrices w priceData) priceData
  = updateCurrencyPrices w priceData.
Proof.
  unfold updateCurrencyPrices. simpl. f_equal.
  rewrite <-list_fmap_compose. apply list_fmap_ext. intros _ c _. simpl.
  destruct (priceData !! symbol c) as [p|] eqn:Hp; simpl.
  - destruct (decide (p = 0)) as [Hz|Hnz]; simpl.
    + rewrite Hp. simpl. by rewrite decide_True.
    + rewrite Hp. simpl. by rewrite decide_False.
  - by rewrite Hp.
Qed.

(** X8: a price mapping that gives every held symbol no price or the price
    0 leaves the whole wallet as it was; the empty mapping is one. *)
Theorem updateCurrencyPrices_nothing_to_refresh w (priceData : gmap string Qc) :
  (∀ c, c ∈ currencies w →
        priceData !! symbol c = None ∨ priceData !! symbol c = Some 0) →
  updateCurrencyPrices w priceData = w.
Proof.
  intros Hnone. destruct w as [cs hist]. unfold updateCurrencyPrices. simpl in *.
  f_equal. rewrite <-(list_fmap_id cs) at 2.
  apply list_fmap_ext. intros _ c Hc%list_elem_of_lookup_2. simpl.
  destruct (Hnone c Hc) as [-> | ->]; [done|].
  unfold refreshPrice. by destruct (decide (0 = 0)).
Qed.

Lemma updateCurrencyPrices_nothing_to_refresh_witness :
  updateCurrencyPrices btcWallet ∅ = btcWallet.
Proof.
  apply (updateCurrencyPrices_nothing_to_refresh btcWallet ∅).
  intros c _. left. apply lookup_empty.
Defined.

Lemma filter_insert_dropped {A} (P : A → Prop) `{∀ x, Decision (P x)}
    (l : list A) (i : nat) (c x : A) :
  l !! i = Some c → ¬ P c → ¬ P x →
  filter P (<[i := x]> l) = filter P l.
Proof.
  revert i. induction l as [|d l IH]; intros [|i] Hi Hc Hx; try done.
  - injection Hi as ->.
    change (<[0%nat := x]> (c :: l)) with (x :: l).
    by rewrite !filter_cons_False.
  - change (<[S i := x]> (d :: l)) with (d :: <[i := x]> l).
    rewrite !filter_cons. by rewrite (IH i).
Qed.

(** X9: buying a symbol that is not held and selling the same amount again,
    at whatever price, gives back the wallet as it was before the buy; the
    sell answers the proceeds [amount * sell price]. *)
Theorem buy_then_sell_all_restores w sym nm amt price price' :
  findCurrency sym (currencies w) = None →
  sell (addOrUpdateCurrency w sym nm amt price) sym amt price'
  = (w, inr (amt * price')).
Proof.
  intros Hfresh.
  assert (Forall (λ c, symbol c ≠ sym) (currencies w)) as Hothers
    by (by apply list_find_None in Hfresh).
  pose proof (findCurrency_push sym (currencies w)
                (newCurrency sym nm amt price) Hfresh eq_refl) as Hfound.
  unfold addOrUpdateCurrency. rewrite Hfresh.
  rewrite (sell_covered
             {| currencies := currencies w ++ [newCurrency sym nm amt price];
                portfolioHistory := portfolioHistory w |}
             sym amt price' _ _ Hfound (Qcle_refl _)).
  simpl.
  destruct (decide (amt - amt ≤ 0)) as [_|Hn];
    [|destruct Hn; unfold Qcminus; by rewrite Qcplus_opp_r].
  rewrite <-(Nat.add_0_r (length (currencies w))), insert_app_r.
  rewrite filter_app, filter_all by done.
  simpl. rewrite filter_cons_False by (by intros ?).
  rewrite filter_nil, app_nil_r. by destruct w.
Qed.

Lemma buy_then_sell_all_restores_witness :
  sell (addOrUpdateCurrency btcWallet "ETH" "Ethereum" (qc 5 1) (qc 2000 1))
       "ETH" (qc 5 1) (qc 2100 1)
  = (btcWallet, inr (qc 5 1 * qc 2100 1)).
Proof.
  apply (buy_then_sell_all_restores btcWallet "ETH" "Ethereum" (qc 5 1)
           (qc 2000 1) (qc 2100 1)).
  reflexivity.
Defined.

(** X10: a sell that the position covers leaves the positions of all other
    symbols as they were and in the same order, and leaves the history
    alone. *)
Theorem sell_leaves_other_positions w sym amt price i c :
  findCurrency sym (currencies w) = Some (i, c) →
  amt ≤ amount c →
  let w' := fst (sell w sym amt price) in
  filter (λ d, symbol d ≠ sym) (currencies w')
  = filter (λ d, symbol d ≠ sym) (currencies w) ∧
  portfolioHistory w' = portfolioHistory w.
Proof.
  intros Hfind Hle w'. subst w'.
  rewrite (sell_covered _ _ _ _ _ _ Hfind Hle). simpl.
  apply findCurrency_Some in Hfind as [Hi Hs].
  assert (filter (λ d, symbol d ≠ sym) (<[i := reduceAmount c amt]> (currencies w))
          = filter (λ d, symbol d ≠ sym) (currencies w)) as Hsame.
  { apply filter_insert_dropped with c; [done| |]; by intros ?. }
  split; [|done].
  destruct (decide (amount c - amt ≤ 0)); [|done].
  rewrite list_filter_filter, <-Hsame.
  apply list_filter_iff. tauto.
Qed.

Lemma sell_leaves_other_positions_witness :
  let w := addOrUpdateCurrency btcWallet "ETH" "Ethereum" (qc 5 1) (qc 2000 1) in
  let w' := fst (sell w "ETH" (qc 5 1) (qc 2100 1)) in
  filter (λ d, symbol d ≠ "ETH"%string) (currencies w')
  = filter (λ d, symbol d ≠ "ETH"%string) (currencies w) ∧
  portfolioHistory w' = portfolioHistory w.
Proof.
  apply (sell_leaves_other_positions
           (addOrUpdateCurrency btcWallet "ETH" "Ethereum" (qc 5 1) (qc 2000 1))
           "ETH" (qc 5 1) (qc 2100 1) 1%nat
           (newCurrency "ETH" "Ethereum" (qc 5 1) (qc 2000 1))).
  - reflexivity.
  - vm_compute. discriminate.
Defined.

(** X11: a position that was sold out and is bought again starts afresh:
    it is pushed at the end with the new name, the bought amount, and the
    new price as its average cost; nothing of the old cost basis is blended
    in. *)
Theorem rebuy_after_sell_out_starts_afresh w sym price i c nm amt price' :
  findCurrency sym (currencies w) = Some (i, c) →
  let sold := fst (sell w sym (amount c) price) in
  let w' := addOrUpdateCurrency sold sym nm amt price' in
  ∃ c', findCurrency sym (currencies w') = Some (length (currencies sold), c') ∧
        name c' = nm ∧ amount c' = amt ∧
        averageBuyPrice c' = price' ∧ profitLoss c' = 0.
Proof.
  intros Hfind sold w'.
  assert (findCurrency sym (currencies sold) = None) as Hgone.
  { subst sold. rewrite (sell_covered _ _ _ _ _ _ Hfind (Qcle_refl _)). simpl.
    unfold Qcminus. rewrite Qcplus_opp_r.
    destruct (decide (0 ≤ 0)) as [_|Hn]; [|by destruct Hn].
    apply findCurrency_filter. }
  subst w'. unfold addOrUpdateCurrency. rewrite Hgone. simpl.
  exists (newCurrency sym nm amt price'). split; [|done].
  by apply findCurrency_push.
Qed.

Lemma rebuy_after_sell_out_starts_afresh_witness :
  let sold := fst (sell btcWallet "BTC" (amount btcPosition) (qc 12000 1)) in
  let w' := addOrUpdateCurrency sold "BTC" "Bitcoin again" (qc 1 1) (qc 20000 1) in
  ∃ c', findCurrency "BTC" (currencies w') = Some (length (currencies sold), c') ∧
        name c' = "Bitcoin again"%string ∧ amount c' = qc 1 1 ∧
        averageBuyPrice c' = qc 20000 1 ∧ profitLoss c' = 0.
Proof.
  apply (rebuy_after_sell_out_starts_afresh btcWallet "BTC" (qc 12000 1) 0%nat
           btcPosition "Bitcoin again" (qc 1 1) (qc 20000 1)).
  reflexivity.
Defined.

(** *** The stored derived fields *)

Lemma refreshPrice_stored newPrice c :
  storedOk c → storedOk (refreshPrice newPrice c).
Proof.
  intros Hc. destruct newPrice as [p|]; simpl; [|done].
  destruct (decide (p = 0)); [done|]. split; simpl; [done|by left].
Qed.

Lemma step_stored w w' :
  step w w' → Forall storedOk (currencies w) → Forall storedOk (currencies w').
Proof.
  destruct 1 as [w sym nm amt price _ _|w sym amt price _|w priceData];
    intros Hw.
  - unfold addOrUpdateCurrency.
    destruct (findCurrency sym (currencies w)) as [[i c]|]; simpl.
    + apply Forall_insert; [done|]. split; simpl; [done|by left].
    + apply Forall_app. split; [done|].
      apply Forall_singleton. split; simpl; [done|by right].
  - unfold sell.
    destruct (findCurrency sym (currencies w)) as [[i c]|]; [|done].
    destruct (decide (amount c < amt)); [done|]. simpl.
    assert (Forall storedOk (<[i := reduceAmount c amt]> (currencies w)))
      as Hins.
    { apply Forall_insert; [done|]. split; simpl; [done|by left]. }
    destruct (decide (amount c - amt ≤ 0)); [|done].
    rewrite Forall_forall in Hins. apply Forall_forall.
    intros d [_ Hd]%list_elem_of_filter. by apply Hins.
  - simpl. apply Forall_fmap. eapply Forall_impl; [done|].
    intros c Hc. by apply refreshPrice_stored.
Qed.

Lemma reachable_stored w : reachable w → Forall storedOk (currencies w).
Proof.
  induction 1 as [|w w' _ IH Hstep].
  - apply Forall_nil_2.
  - by eapply step_stored.
Qed.

(** X12: the derived fields stored in a reachable wallet are never stale.
    For every position the value is the amount times the current price; and
    either the profit or loss is the value minus the amount times the
    average cost and the percentage is the one of the current price against
    the average cost (0 when the average cost is not positive), both as
    computed from the fields of the position, or the position is untouched
    since its first buy: its profit or loss and its percentage are 0 and
    its average cost is its current price. *)
Theorem reachable_derived_fields w c :
  reachable w → c ∈ currencies w →
  value c = amount c * currentPrice c ∧
  ((profitLoss c = value c - amount c * averageBuyPrice c ∧
    profitLossPercentage c =
      (if decide (0 < averageBuyPrice c)
       then (currentPrice c - averageBuyPrice c) / averageBuyPrice c * hundred
       else 0))
   ∨ (profitLoss c = 0 ∧ profitLossPercentage c = 0 ∧
      averageBuyPrice c = currentPrice c)).
Proof.
  intros Hw Hc. apply reachable_stored in Hw.
  rewrite Forall_forall in Hw. by destruct (Hw c Hc).
Qed.

Lemma reachable_derived_fields_witness :
  value btcPosition = amount btcPosition * currentPrice btcPosition ∧
  ((profitLoss btcPosition
    = value btcPosition - amount btcPosition * averageBuyPrice btcPosition ∧
    profitLossPercentage btcPosition =
      (if decide (0 < averageBuyPrice btcPosition)
       then (currentPrice btcPosition - averageBuyPrice btcPosition)
            / averageBuyPrice btcPosition * hundred
       else 0))
   ∨ (profitLoss btcPosition = 0 ∧ profitLossPercentage btcPosition = 0 ∧
      averageBuyPrice btcPosition = currentPrice btcPosition)).
Proof.
  apply (reachable_derived_fields btcWallet btcPosition btcWallet_reachable).
  apply list_elem_of_singleton. reflexivity.
Defined.

(** ** Aggregates *)

(** C7, as stated, fails on the numbers of the code.  After the buys of
    0.000001 BTC and of 0.001 BTC at 43250.75 and of 0.1 ETH at 2678.45,
    all of them valid requests, the total invested is positive, the virtual
    [totalProfitLoss] is about -7.1e-15 while [totalValue - totalInvested]
    is 0, and the virtual [totalProfitLossPercentage] is 0 while
    [totalProfitLoss / totalInvested * 100] is about -2.3e-15. *)
Lemma aggregate_on_doubles :
  let w := Ieee.threeBuys in
  PrimFloat.ltb 0 (Ieee.totalInvestment w) = true ∧
  Ieee.totalProfitLoss w = (-7.1054273576010019e-15)%float ∧
  PrimFloat.sub (Ieee.totalPortfolioValue w) (Ieee.totalInvestment w)
    = 0%float ∧
  PrimFloat.eqb (Ieee.totalProfitLoss w)
    (PrimFloat.sub (Ieee.totalPortfolioValue w) (Ieee.totalInvestment w))
    = false ∧
  Ieee.totalProfitLossPercentage w = 0%float ∧
  PrimFloat.mul
    (PrimFloat.div (Ieee.totalProfitLoss w) (Ieee.totalInvestment w))
    Ieee.hundred
    = (-2.2836826436008928e-15)%float ∧
  PrimFloat.eqb (Ieee.totalProfitLossPercentage w)
    (PrimFloat.mul
       (PrimFloat.div (Ieee.totalProfitLoss w) (Ieee.totalInvestment w))
       Ieee.hundred)
    = false.
Proof. split_and!; vm_compute; reflexivity. Qed.

(** C7, amended: in every wallet reachable from the empty one by buys, sells
    and price updates, [totalProfitLoss] is the sum, taken in order, of the
    profit or loss stored in each position, and what is stored in a position
    is its value minus its amount times its average cost as computed on that
    position (for a position untouched since its first buy it is 0, and the
    value is the amount times the average cost); the sum of these terms is
    [totalValue - totalInvested] only up to rounding.
    [totalProfitLossPercentage] is
    [(totalValue - totalInvested) / totalInvested * 100] when the total
    invested is greater than 0, and 0 otherwise. *)
Theorem reachable_aggregate w :
  reachable w →
  totalProfitLoss w = sumFrom profitLoss 0 (currencies w) ∧
  (∀ c, c ∈ currencies w →
        profitLoss c = value c - amount c * averageBuyPrice c
        ∨ (profitLoss c = 0 ∧ value c = amount c * averageBuyPrice c)) ∧
  totalProfitLossPercentage w =
    (if decide (0 < totalInvestment w)
     then (totalPortfolioValue w - totalInvestment w) / totalInvestment w
          * hundred
     else 0).
Proof.
  intros Hw. split_and!; [done| |].
  - intros c Hc. apply reachable_stored in Hw.
    rewrite Forall_forall in Hw.
    destruct (Hw c Hc) as [Hvalue [[HpL _]|(HpL & _ & Havg)]]; [by left|].
    right. split; [done|]. by rewrite Havg.
  - apply reachable_ok in Hw.
    pose proof (sum_invested_nonneg _ Hw) as Hnonneg.
    change (0 ≤ totalInvestment w) in Hnonneg.
    unfold totalProfitLossPercentage.
    destruct (decide (totalInvestment w = 0)) as [Hzero|Hne].
    + rewrite decide_False; [done|]. rewrite Hzero.
      intros Hlt. by apply Qclt_not_eq in Hlt.
    + rewrite decide_True; [done|].
      apply Qcle_lt_or_eq in Hnonneg as [?|Heq]; [done|].
      by destruct Hne.
Qed.

Lemma reachable_aggregate_witness :
  totalProfitLoss btcWallet = sumFrom profitLoss 0 (currencies btcWallet) ∧
  (∀ c, c ∈ currencies btcWallet →
        profitLoss c = value c - amount c * averageBuyPrice c
        ∨ (profitLoss c = 0 ∧ value c = amount c * averageBuyPrice c)) ∧
  totalProfitLossPercentage btcWallet =
    (if decide (0 < totalInvestment btcWallet)
     then (totalPortfolioValue btcWallet - totalInvestment btcWallet)
          / totalInvestment btcWallet * hundred
     else 0).
Proof. apply (reachable_aggregate btcWallet btcWallet_reachable). Defined.

(** ** Further properties of the snapshots and of the history query *)

Lemma sumFrom_sumList f a cs :
  sumFrom f a cs = foldl Qcplus a (f <$> cs).
Proof.
  revert a. induction cs as [|c cs IH]; intros a; [done|].
  apply (IH (a + f c)).
Qed.

(** X14: the total of a snapshot is the sum of the values of its own
    per-symbol entries, added in their order. *)
Theorem makeSnapshot_total_is_sum now w :
  totalValue (makeSnapshot now w)
  = sumList (snap_value <$> snap_currencies (makeSnapshot now w)).
Proof.
  simpl. rewrite <-list_fmap_compose.
  apply (sumFrom_sumList value).
Qed.

Lemma Forall_filter_keep {A} (Q P : A → Prop) `{∀ x, Decision (P x)} l :
  Forall Q l → Forall Q (filter P l).
Proof.
  rewrite !Forall_forall. intros HQ x [_ Hx]%list_elem_of_filter. by apply HQ.
Qed.

Lemma StronglySorted_filter {A} (R : relation A) (P : A → Prop)
    `{∀ x, Decision (P x)} l :
  StronglySorted R l → StronglySorted R (filter P l).
Proof.
  induction 1 as [|x l _ IH Hx]; [constructor|].
  rewrite filter_cons. destruct (decide (P x)); [|done].
  constructor; [done|]. by apply Forall_filter_keep.
Qed.

(** X15: if the history is in ascending order of date and holds no record
    dated after [now], it is still in ascending order after
    [recordPortfolioSnapshot] at [now], in whatever time zone. *)
Theorem recordPortfolioSnapshot_keeps_order tz now w :
  StronglySorted byDate (portfolioHistory w) →
  (∀ record, record ∈ portfolioHistory w → (date record ≤ now)%Z) →
  StronglySorted byDate (portfolioHistory (recordPortfolioSnapshot tz now w)).
Proof.
  intros Hsorted Hpast. simpl. apply StronglySorted_filter.
  apply StronglySorted_app_2; [|done|repeat constructor].
  intros a b Ha ->%list_elem_of_singleton. by apply Hpast.
Qed.

Lemma recordPortfolioSnapshot_keeps_order_witness :
  StronglySorted byDate
    (portfolioHistory
       (recordPortfolioSnapshot newYork (noonAfterChange + dayMs)
          (recordPortfolioSnapshot newYork noonAfterChange yearOldWallet))).
Proof.
  apply (recordPortfolioSnapshot_keeps_order newYork (noonAfterChange + dayMs)
           (recordPortfolioSnapshot newYork noonAfterChange yearOldWallet)).
  - repeat constructor; vm_compute; discriminate.
  - intros record Hrecord.
    assert (record = yearOldRecord
            ∨ record = makeSnapshot noonAfterChange yearOldWallet)
      as [-> | ->]; [|vm_compute; discriminate..].
    apply elem_of_cons in Hrecord as [?|Hrecord]; [by left|].
    apply list_elem_of_singleton in Hrecord. by right.
Defined.

(** *** The sort of the history query *)

Lemma insertByDate_Permutation record sorted :
  insertByDate record sorted ≡ₚ record :: sorted.
Proof.
  induction sorted as [|next rest IH]; simpl; [done|].
  destruct (decide (date record ≤ date next)%Z); [done|].
  rewrite IH. apply Permutation_swap.
Qed.

Lemma sortByDate_Permutation records : sortByDate records ≡ₚ records.
Proof.
  induction records as [|record records IH]; simpl; [done|].
  by rewrite insertByDate_Permutation, IH.
Qed.

Lemma insertByDate_sorted record sorted :
  StronglySorted byDate sorted →
  StronglySorted byDate (insertByDate record sorted).
Proof.
  induction 1 as [|next rest Hrest IH Hnext]; simpl.
  - repeat constructor.
  - destruct (decide (date record ≤ date next)%Z) as [Hle|Hgt].
    + constructor; [by constructor|].
      constructor; [done|].
      eapply Forall_impl; [exact Hnext|]. unfold byDate. intros later. lia.
    + constructor; [done|].
      rewrite insertByDate_Permutation. constructor; [|done].
      unfold byDate. lia.
Qed.

Lemma sortByDate_sorted records : StronglySorted byDate (sortByDate records).
Proof.
  induction records as [|record records IH]; simpl; [constructor|].
  by apply insertByDate_sorted.
Qed.

Lemma insertByDate_same_date (d : Z) record sorted :
  filter (λ r, date r = d) (insertByDate record sorted)
  = filter (λ r, date r = d) (record :: sorted).
Proof.
  induction sorted as [|next rest IH]; simpl; [done|].
  destruct (decide (date record ≤ date next)%Z) as [Hle|Hgt]; [done|].
  rewrite (filter_cons _ next), IH, !filter_cons.
  destruct (decide (date next = d)), (decide (date record = d)); try done.
  lia.
Qed.

Lemma sortByDate_same_date (d : Z) records :
  filter (λ r, date r = d) (sortByDate records)
  = filter (λ r, date r = d) records.
Proof.
  induction records as [|record records IH]; simpl; [done|].
  by rewrite insertByDate_same_date, !filter_cons, IH.
Qed.

(** X16: the history query never answers an empty list, and what it
    answers is in ascending order of date. *)
Theorem getPortfolioHistory_sorted_nonempty tz now days w :
  getPortfolioHistory tz now days w ≠ [] ∧
  StronglySorted byDate (getPortfolioHistory tz now days w).
Proof.
  unfold getPortfolioHistory.
  set (history := sortByDate _).
  destruct (decide (length history = 0%nat)) as [Hempty|Hsome].
  - apply nil_length_inv in Hempty. rewrite Hempty. simpl.
    split; [done|repeat constructor].
  - split; [|apply sortByDate_sorted].
    intros Hnil. by rewrite Hnil in Hsome.
Qed.

(** X17: when no stored record is on or after the cutoff that the handler
    computes with [setDate(getDate() - days)], and always when that cutoff
    is an Invalid Date, the query answers a single record made up on the
    spot: dated [now], with the wallet's current total and one entry per
    position. *)
Theorem getPortfolioHistory_fallback tz now days w :
  let cutoffDate := d ← days; shiftDate tz (- d) now in
  (∀ record, record ∈ portfolioHistory w →
             ¬ onOrAfter cutoffDate (date record)) →
  getPortfolioHistory tz now days w = [makeSnapshot now w].
Proof.
  intros cutoffDate Hstale. unfold getPortfolioHistory. fold cutoffDate.
  assert (filter (λ record, onOrAfter cutoffDate (date record))
                 (portfolioHistory w) = []) as ->.
  { apply elem_of_nil_inv. intros record [Hin Hrecord]%list_elem_of_filter.
    by apply (Hstale record). }
  done.
Qed.

Lemma getPortfolioHistory_fallback_witness :
  getPortfolioHistory newYork noonAfterChange (Some 30%Z) yearOldWallet
  = [makeSnapshot noonAfterChange yearOldWallet] ∧
  getPortfolioHistory newYork noonAfterChange None yearOldWallet
  = [makeSnapshot noonAfterChange yearOldWallet].
Proof.
  split.
  - apply (getPortfolioHistory_fallback newYork noonAfterChange (Some 30%Z)
             yearOldWallet).
    intros record ->%list_elem_of_singleton. vm_compute. by intros [].
  - apply (getPortfolioHistory_fallback newYork noonAfterChange None
             yearOldWallet).
    intros record _. simpl. tauto.
Defined.

(** X18: when some stored record is on or after the cutoff that the handler
    computes, the query answers the stored records that are, and nothing
    else: the answer is a rearrangement of them, and records of one date
    come in the order in which they are stored. *)
Theorem getPortfolioHistory_answers_stored tz now days w recent :
  let cutoffDate := d ← days; shiftDate tz (- d) now in
  recent ∈ portfolioHistory w →
  onOrAfter cutoffDate (date recent) →
  let inWindow :=
    filter (λ record, onOrAfter cutoffDate (date record))
           (portfolioHistory w) in
  getPortfolioHistory tz now days w ≡ₚ inWindow ∧
  (∀ record, record ∈ getPortfolioHistory tz now days w ↔
             record ∈ portfolioHistory w ∧
             onOrAfter cutoffDate (date record)) ∧
  (∀ d : Z, filter (λ r, date r = d) (getPortfolioHistory tz now days w)
            = filter (λ r, date r = d) inWindow).
Proof.
  intros cutoffDate Hin Hrecent inWindow.
  assert (getPortfolioHistory tz now days w = sortByDate inWindow) as ->.
  { unfold getPortfolioHistory. fold cutoffDate. fold inWindow.
    rewrite decide_False; [done|].
    intros Hempty%nil_length_inv.
    assert (recent ∈ sortByDate inWindow) as Hthere.
    { rewrite sortByDate_Permutation. by apply list_elem_of_filter. }
    rewrite Hempty in Hthere. by apply not_elem_of_nil in Hthere. }
  split_and!.
  - apply sortByDate_Permutation.
  - intros record. rewrite sortByDate_Permutation.
    unfold inWindow. rewrite list_elem_of_filter. tauto.
  - intros d. apply sortByDate_same_date.
Qed.

Lemma getPortfolioHistory_answers_stored_witness :
  let cutoffDate := shiftDate newYork (- 366) noonAfterChange in
  let inWindow :=
    filter (λ record, onOrAfter cutoffDate (date record))
           (portfolioHistory yearOldWallet) in
  getPortfolioHistory newYork noonAfterChange (Some 366%Z) yearOldWallet
    ≡ₚ inWindow ∧
  (∀ record,
     record ∈ getPortfolioHistory newYork noonAfterChange (Some 366%Z) yearOldWallet
     ↔ record ∈ portfolioHistory yearOldWallet ∧
       onOrAfter cutoffDate (date record)) ∧
  (∀ d : Z,
     filter (λ r, date r = d)
       (getPortfolioHistory newYork noonAfterChange (Some 366%Z) yearOldWallet)
     = filter (λ r, date r = d) inWindow).
Proof.
  apply (getPortfolioHistory_answers_stored newYork noonAfterChange (Some 366%Z)
           yearOldWallet yearOldRecord).
  - apply list_elem_of_here.
  - vm_compute. discriminate.
Defined.

(** X19: a snapshot recorded at [now] is answered by a query made at the
    same instant whenever the cutoff of the query is not after [now], and
    the pruning done while recording hides nothing from a query whose cutoff
    is not before the cutoff of the pruning: the query answers a
    rearrangement of all the records, old and new, that are on or after its
    own cutoff. *)
Theorem record_then_query tz now days w pruneCutoff queryCutoff :
  shiftDate tz (-365) now = Some pruneCutoff →
  shiftDate tz (- days) now = Some queryCutoff →
  (pruneCutoff ≤ queryCutoff ≤ now)%Z →
  let answer :=
    getPortfolioHistory tz now (Some days) (recordPortfolioSnapshot tz now w) in
  makeSnapshot now w ∈ answer ∧
  answer ≡ₚ filter (λ record, (queryCutoff ≤ date record)%Z)
                   (portfolioHistory w ++ [makeSnapshot now w]).
Proof.
  intros Hprune Hquery Horder answer.
  assert (Hanswer : answer =
    sortByDate (filter (λ record, (queryCutoff ≤ date record)%Z)
                       (portfolioHistory w ++ [makeSnapshot now w]))).
  { subst answer. unfold getPortfolioHistory. simpl.
    rewrite Hprune, Hquery. simpl.
    rewrite list_filter_filter.
    rewrite (list_filter_iff _ (λ record, (queryCutoff ≤ date record)%Z)).
    2:{ intros record. lia. }
    rewrite decide_False; [done|].
    intros Hempty%nil_length_inv.
    assert (makeSnapshot now w ∈ @nil Snapshot) as Hin; [|by inv Hin].
    rewrite <-Hempty, sortByDate_Permutation.
    apply list_elem_of_filter. split.
    - simpl. lia.
    - apply elem_of_app. right. apply list_elem_of_here. }
  rewrite Hanswer, !sortByDate_Permutation. split; [|done].
  apply list_elem_of_filter. split.
  - simpl. lia.
  - apply elem_of_app. right. apply list_elem_of_here.
Qed.

Lemma record_then_query_witness :
  let now := noonAfterChange in
  let answer :=
    getPortfolioHistory newYork now (Some 30%Z)
      (recordPortfolioSnapshot newYork now yearOldWallet) in
  makeSnapshot now yearOldWallet ∈ answer ∧
  answer ≡ₚ filter (λ record, (now - 30 * dayMs - hourMs ≤ date record)%Z)
                   (portfolioHistory yearOldWallet
                    ++ [makeSnapshot now yearOldWallet]).
Proof.
  apply (record_then_query newYork noonAfterChange 30 yearOldWallet
           (noonAfterChange - 365 * dayMs - hourMs)
           (noonAfterChange - 30 * dayMs - hourMs)).
  - reflexivity.
  - reflexivity.
  - vm_compute. split; discriminate.
Defined.

(** ** The pagination of the transaction list *)

Lemma Qceiling_gt_iff (p : Z) (x : Q) :
  (p < Qceiling x)%Z ↔ (inject_Z p < x)%Q.
Proof.
  split.
  - intros Hlt. apply Qle_lt_trans with (inject_Z (Qceiling x - 1)).
    + rewrite <-Zle_Qle. lia.
    + apply Qceiling_lt.
  - intros Hlt. rewrite Zlt_Qlt.
    apply Qlt_le_trans with x; [done|apply Qle_ceiling].
Qed.

Lemma Qlt_div_iff (p total limit : Z) :
  (0 < limit)%Z →
  (inject_Z p < inject_Z total / inject_Z limit)%Q ↔ (p * limit < total)%Z.
Proof.
  intros Hlimit.
  assert (0 < inject_Z limit)%Q as Hpos by (by rewrite <-(Zlt_Qlt 0)).
  rewrite Zlt_Qlt, inject_Z_mult. split.
  - intros Hlt. apply Qnot_le_lt. intros Hle.
    apply (Qlt_not_le _ _ Hlt). by apply Qle_shift_div_r.
  - intros Hlt. by apply Qlt_shift_div_l.
Qed.

Lemma pages_gt_iff (p limit total : Z) :
  (1 ≤ limit)%Z →
  (p < Qceiling (inject_Z total / inject_Z limit))%Z ↔ (p * limit < total)%Z.
Proof.
  intros Hlimit. rewrite Qceiling_gt_iff. apply Qlt_div_iff. lia.
Qed.


(** X20: with a page size of at least 1, [totalPages] is the least number
    of pages that holds [totalTransactions] entries, and [hasNextPage] is
    set exactly when entries remain after the current page, that is when
    [page * limit < totalTransactions]. *)
Theorem paginate_pages page limit total :
  (1 ≤ limit)%Z →
  let pagination := paginate page limit total in
  ((totalPages pagination - 1) * limit < total ≤ totalPages pagination * limit)%Z ∧
  (hasNextPage pagination = true ↔ (page * limit < total)%Z).
Proof.
  intros Hlimit pagination. subst pagination. simpl.
  set (pages := Qceiling (inject_Z total / inject_Z limit)).
  split_and!.
  - apply (pages_gt_iff (pages - 1) limit total Hlimit). lia.
  - apply Z.le_ngt. intros Hlt%(pages_gt_iff pages limit total Hlimit). lia.
  - rewrite bool_decide_eq_true. by apply pages_gt_iff.
Qed.

Lemma paginate_pages_witness :
  let pagination := paginate 2 10 25 in
  ((totalPages pagination - 1) * 10 < 25 ≤ totalPages pagination * 10)%Z ∧
  (hasNextPage pagination = true ↔ (2 * 10 < 25)%Z).
Proof. apply (paginate_pages 2 10 25). lia. Defined.



(** ** The mock price history *)

Lemma maxQc_ge_r (x y : Qc) : y ≤ maxQc x y.
Proof.
  unfold maxQc. destruct (decide (x < y)).
  - apply Qcle_refl.
  - by apply Qcnot_lt_le.
Qed.

(** X23: the mock price history has one point per day asked for (none for a
    negative number of days or for [NaN]), and whatever the random draws, no
    price in it is below 0.01. *)
Theorem generateMockPriceHistory_shape tz random now currentPrice days :
  let history := generateMockPriceHistory tz random now currentPrice days in
  length history = Z.to_nat (default 0%Z days) ∧
  (∀ (i : nat) point, history !! i = Some point → qc 1 100 ≤ point.2).
Proof.
  intros history. subst history. unfold generateMockPriceHistory.
  destruct days as [days|]; [|done]. split.
  - by rewrite length_fmap, length_seq.
  - intros i point. rewrite list_lookup_fmap.
    destruct (seq 0 (Z.to_nat days) !! i) as [k|] eqn:Hk; [|done].
    simpl. intros [= <-]. simpl. apply maxQc_ge_r.
Qed.
